(** * The Account facade of starknet.js (src/account/default.ts)

    A shallow embedding of the class [Account]: its methods [getNonce],
    [execute], [signMessage], [hashMessage], [verifyMessageHash] and
    [verifyMessage].  The methods are asynchronous and talk to the
    gateway through the inherited [Provider] and to the key holder through
    a [SignerInterface]; here every such exchange is an entry of an
    explicit log, and a rejected promise (or a thrown exception) is the
    left injection of a sum. *)

From Stdlib Require Import String Ascii List ZArith Bool Lia.
From Stdlib Require Import DecimalString HexadecimalString.
From Stdlib Require DecimalPos DecimalZ.
From ExtLib Require Import Structures.Monad Structures.MonadExc.
Import ListNotations.
Import MonadNotation.

Local Open Scope string_scope.
Local Open Scope list_scope.
Local Open Scope monad_scope.

(** ** Values *)

(** A thrown JavaScript value: [new Error(message)]. *)
Inductive exn : Type :=
| Error (message : string).

(** bn.js big integers. *)
Definition BN : Type := Z.

(** [BigNumberish = string | number | BN]. *)
Inductive BigNumberish : Type :=
| BnString (s : string)
| BnNumber (n : Z)
| BnBN (b : BN).

Definition Signature : Type := list BigNumberish.

(** [BN.prototype.toString()], base ten. *)
Definition BN_toString (b : BN) : string :=
  DecimalString.NilZero.string_of_int (Z.to_int b).

(** [Number.prototype.toString()] on an array length. *)
Definition Number_toString (n : nat) : string :=
  DecimalString.NilZero.string_of_uint (Nat.to_uint n).

(** The invocation handed to the provider and to the signer:
    [{ contractAddress, entrypoint, calldata?, signature? }]. *)
Module Invocation.
Record t : Type := mk {
  contractAddress : string;
  entrypoint : string;
  calldata : option (list string);
  signature : option Signature
}.
End Invocation.

(** The invocation a caller hands to [execute]: an [Invocation] without
    its signature, the calldata still [BigNumberish]. *)
Module ExecuteInvocation.
Record t : Type := mk {
  contractAddress : string;
  entrypoint : string;
  calldata : option (list BigNumberish)
}.
End ExecuteInvocation.

(** [transactions: ExecuteInvocation | ExecuteInvocation[]]. *)
Inductive Transactions : Type :=
| Single (transaction : ExecuteInvocation.t)
| Array (transactions : list ExecuteInvocation.t).

Record InvocationsDetails : Type := {
  nonce : option BigNumberish
}.

Record InvocationsSignerDetails : Type := {
  walletAddress : string;
  signerNonce : BN
}.

Record CallContractResponse : Type := {
  result : list string
}.

Record AddTransactionResponse : Type := {
  code : string;
  transaction_hash : string
}.

(** ** Effects *)

Section Effects.

(** [Abi] and [TypedData] are declared in ../types and ../utils/typedData;
    the facade only passes them on. *)
Context {Abi TypedData : Type}.

(** One exchange with a collaborator. *)
Inductive event : Type :=
| CallContract (invocation : Invocation.t)
| InvokeFunction (invocation : Invocation.t)
| SignTransaction (transactions : list Invocation.t)
    (details : InvocationsSignerDetails) (abis : list Abi)
| SignMessage (typedData : TypedData) (accountAddress : string).

(** A computation reads the exchanges made so far, appends its own, and
    either returns or throws; the log survives a throw. *)
Definition M (A : Type) : Type := list event -> (exn + A) * list event.

Definition M_ret {A} (a : A) : M A := fun log => (inr a, log).

Definition M_bind {A B} (m : M A) (k : A -> M B) : M B :=
  fun log =>
    match m log with
    | (inl e, log') => (inl e, log')
    | (inr a, log') => k a log'
    end.

Definition throw {A} (e : exn) : M A := fun log => (inl e, log).

(** [try { m } catch { h }]. *)
Definition try_catch {A} (m : M A) (h : exn -> M A) : M A :=
  fun log =>
    match m log with
    | (inl e, log') => h e log'
    | (inr a, log') => (inr a, log')
    end.

#[export] Instance Monad_M : Monad M :=
  {| ret := @M_ret; bind := @M_bind |}.

#[export] Instance MonadExc_M : MonadExc exn M :=
  {| raise := @throw; catch := @try_catch |}.

(** A synchronous helper that may throw. *)
Definition lift {A} (r : exn + A) : M A := fun log => (r, log).

(** An awaited exchange: the collaborator answers from the log so far,
    and the exchange is recorded. *)
Definition exchange {A} (ev : event) (answer : list event -> exn + A) : M A :=
  fun log => (answer log, log ++ [ev]).

End Effects.

Arguments event : clear implicits.
Arguments M : clear implicits.

(** ** Collaborators *)

(** [SignerInterface] of ../signer; a signer may throw, and may look at
    what was exchanged before. *)
Module SignerInterface.
Record t (Abi TypedData : Type) : Type := mk {
  signTransaction :
    list (event Abi TypedData) -> list Invocation.t ->
    InvocationsSignerDetails -> list Abi -> exn + Signature;
  signMessage :
    list (event Abi TypedData) -> TypedData -> string -> exn + Signature
}.
Arguments signTransaction {Abi TypedData}.
Arguments signMessage {Abi TypedData}.
End SignerInterface.

Section Collaborators.

Context {Abi TypedData : Type}.

(** The two operations of [Provider] the facade inherits.  Each answer
    may depend on everything exchanged before (the network has state);
    [inl] is a rejected promise. *)
Record Provider : Type := {
  callContract :
    list (event Abi TypedData) -> Invocation.t -> exn + CallContractResponse;
  invokeFunction :
    list (event Abi TypedData) -> Invocation.t -> exn + AddTransactionResponse
}.

(** The helpers imported from ../utils/number, ../utils/stark and
    ../utils/typedData, whose bodies are not among the sources.  [toBN]
    and [getMessageHash] may throw.  [toBN_undefined] is [toBN] applied to
    [undefined], which is what [result[0]] is on an empty result.
    [representable] is the range check of the field layer that the
    calldata compiler relies on. *)
Class Utils : Type := {
  toBN : BigNumberish -> exn + BN;
  toBN_undefined : exn + BN;
  toHex : BN -> string;
  getSelectorFromName : string -> string;
  getMessageHash : TypedData -> string -> exn + string;
  representable : string -> bool
}.

(** [class Account extends Provider]: the inherited provider, the address
    and the private signer. *)
Record Account : Type := {
  provider : Provider;
  address : string;
  signer : SignerInterface.t Abi TypedData
}.

End Collaborators.

Arguments Provider : clear implicits.
Arguments Utils : clear implicits.
Arguments Account : clear implicits.

(** ** The calldata helpers *)

(** [xs.map(f)] for an [f] that may throw: the first throw wins. *)
Fixpoint map_throwing {A B} (f : A -> exn + B) (xs : list A) : exn + list B :=
  match xs with
  | [] => inr []
  | x :: xs' =>
      match f x with
      | inl e => inl e
      | inr y =>
          match map_throwing f xs' with
          | inl e => inl e
          | inr ys => inr (y :: ys)
          end
      end
  end.

(** A value of the object handed to [compileCalldata]: a scalar or a
    (possibly nested) sequence. *)
#[warnings="-register-all"]
Inductive CalldataValue : Type :=
| Felt (v : string)
| Arr (vs : list CalldataValue).

Section Calldata.

Context {TypedData : Type} {U : Utils TypedData}.

(** Modelled from the spec: bigNumberishArrayToDecimalStringArray of
    ../utils/number is not among the sources.  Every element becomes its
    decimal string, in order, the way [verifyMessageHash] converts a
    signature with [signature.map((x) => toBN(x).toString())]. *)
Definition bigNumberishArrayToDecimalStringArray
    (rawCalldata : list BigNumberish) : exn + list string :=
  map_throwing
    (fun x => match toBN x with
              | inl e => inl e
              | inr b => inr (BN_toString b)
              end)
    rawCalldata.

(** Modelled from the spec: compileCalldata of ../utils/stark is not among
    the sources.  Section 4.1: a scalar is encoded as itself, an array as
    a length-prefix element followed by its elements in order, nested
    structures are flattened depth-first, and a value that is not
    representable in the field fails with an EncodingError. *)
Fixpoint compileValue (v : CalldataValue) : exn + list string :=
  match v with
  | Felt s => if representable s then inr [s] else inl (Error "EncodingError")
  | Arr vs =>
      match
        (fix elements (l : list CalldataValue) : exn + list string :=
           match l with
           | [] => inr []
           | x :: l' =>
               match compileValue x with
               | inl e => inl e
               | inr xs =>
                   match elements l' with
                   | inl e => inl e
                   | inr ys => inr (xs ++ ys)
                   end
               end
           end) vs
      with
      | inl e => inl e
      | inr body => inr (Number_toString (length vs) :: body)
      end
  end.

(** Modelled from the spec: the named arguments are compiled in their
    declared order and concatenated (section 4.1). *)
Fixpoint compileCalldata (args : list (string * CalldataValue))
    : exn + list string :=
  match args with
  | [] => inr []
  | (_, v) :: args' =>
      match compileValue v with
      | inl e => inl e
      | inr xs =>
          match compileCalldata args' with
          | inl e => inl e
          | inr ys => inr (xs ++ ys)
          end
      end
  end.

End Calldata.

(** ** The class Account *)

Section AccountMethods.

Context {Abi TypedData : Type} {U : Utils TypedData}.

Local Abbreviation Account := (Account Abi TypedData).
Local Abbreviation M := (M Abi TypedData).

(** [this.callContract(invocation)] *)
Definition this_callContract (this : Account) (invocation : Invocation.t)
    : M CallContractResponse :=
  exchange (CallContract invocation)
    (fun log => callContract (provider this) log invocation).

(** [super.invokeFunction(invocation)] *)
Definition super_invokeFunction (this : Account) (invocation : Invocation.t)
    : M AddTransactionResponse :=
  exchange (InvokeFunction invocation)
    (fun log => invokeFunction (provider this) log invocation).

(** [this.signer.signTransaction(transactions, details, abis)] *)
Definition signer_signTransaction (this : Account)
    (transactions : list Invocation.t) (details : InvocationsSignerDetails)
    (abis : list Abi) : M Signature :=
  exchange (SignTransaction transactions details abis)
    (fun log =>
       SignerInterface.signTransaction (signer this) log transactions details
         abis).

(** [this.signer.signMessage(typedData, accountAddress)] *)
Definition signer_signMessage (this : Account) (typedData : TypedData)
    (accountAddress : string) : M Signature :=
  exchange (SignMessage typedData accountAddress)
    (fun log =>
       SignerInterface.signMessage (signer this) log typedData accountAddress).

Definition getNonce (this : Account) : M string :=
  r <- this_callContract this
         {| Invocation.contractAddress := address this;
            Invocation.entrypoint := "get_nonce";
            Invocation.calldata := None;
            Invocation.signature := None |} ;;
  b <- lift (match result r with
             | r0 :: _ => toBN (BnString r0)
             | [] => toBN_undefined
             end) ;;
  ret (toHex b).

Definition execute (this : Account) (transactions : Transactions)
    (abis : list Abi) (transactionsDetail : InvocationsDetails)
    : M AddTransactionResponse :=
  if match transactions with
     | Array txs => negb (length txs =? 1)%nat (* isArray && length !== 1 *)
     | Single _ => false
     end
  then raise (Error "Only one transaction at a time is currently supported")
  else
    tx <- match transactions with
          | Array (tx0 :: _) => ret tx0
          | Array [] =>
              raise (Error "TypeError: Cannot destructure 'undefined'")
          | Single tx0 => ret tx0
          end ;;
    let contractAddress := ExecuteInvocation.contractAddress tx in
    let calldata := match ExecuteInvocation.calldata tx with
                    | Some c => c
                    | None => []
                    end in
    let entrypoint := ExecuteInvocation.entrypoint tx in
    nonce0 <- match nonce transactionsDetail with
              | Some n => ret n
              | None => n <- getNonce this ;; ret (BnString n)
              end ;;
    nonceBn <- lift (toBN nonce0) ;;
    calldataDecimal <- lift (bigNumberishArrayToDecimalStringArray calldata) ;;
    signature <- signer_signTransaction this
                   [ {| Invocation.contractAddress := contractAddress;
                        Invocation.entrypoint := entrypoint;
                        Invocation.calldata := Some calldataDecimal;
                        Invocation.signature := None |} ]
                   {| walletAddress := address this; signerNonce := nonceBn |}
                   abis ;;
    let entrypointSelector := getSelectorFromName entrypoint in
    super_invokeFunction this
      {| Invocation.contractAddress := address this;
         Invocation.entrypoint := "execute";
         Invocation.calldata :=
           Some (contractAddress
                 :: entrypointSelector
                 :: Number_toString (length calldataDecimal)
                 :: calldataDecimal ++ [BN_toString nonceBn]);
         Invocation.signature := Some signature |}.

Definition signMessage (this : Account) (typedData : TypedData)
    : M Signature :=
  signer_signMessage this typedData (address this).

Definition hashMessage (this : Account) (typedData : TypedData) : M string :=
  lift (getMessageHash typedData (address this)).

Definition verifyMessageHash (this : Account) (hash : BigNumberish)
    (signature : Signature) : M bool :=
  catch
    (h <- lift (toBN hash) ;;
     sig <- lift (bigNumberishArrayToDecimalStringArray signature) ;;
     cd <- lift (compileCalldata
                   [ ("hash", Felt (BN_toString h));
                     ("signature", Arr (map Felt sig)) ]) ;;
     _ <- this_callContract this
            {| Invocation.contractAddress := address this;
               Invocation.entrypoint := "is_valid_signature";
               Invocation.calldata := Some cd;
               Invocation.signature := None |} ;;
     ret true)
    (fun _ => ret false).

Definition verifyMessage (this : Account) (typedData : TypedData)
    (signature : Signature) : M bool :=
  hash <- hashMessage this typedData ;;
  verifyMessageHash this (BnString hash) signature.

End AccountMethods.

(** ** Vocabulary of the statements *)

(** The one invocation [execute] wraps: the argument itself, or the only
    element of a one-element array. *)
Definition sole_transaction (transactions : Transactions)
    : option ExecuteInvocation.t :=
  match transactions with
  | Single tx => Some tx
  | Array [tx] => Some tx
  | Array _ => None
  end.

(** The inner calldata after the default [calldata = []]. *)
Definition inner_calldata (tx : ExecuteInvocation.t) : list BigNumberish :=
  match ExecuteInvocation.calldata tx with
  | Some c => c
  | None => []
  end.

(** What a computation appended to the log it started from. *)
Definition appended {E A} (m : list E -> A * list E) (log : list E) : list E :=
  skipn (length log) (snd (m log)).

Definition is_CallContract {Abi TypedData} (ev : event Abi TypedData) : bool :=
  match ev with
  | CallContract _ => true
  | _ => false
  end.

Definition is_InvokeFunction {Abi TypedData} (ev : event Abi TypedData)
    : bool :=
  match ev with
  | InvokeFunction _ => true
  | _ => false
  end.

Definition resolved {A} (r : exn + A) : bool :=
  match r with
  | inr _ => true
  | inl _ => false
  end.

(** The read [getNonce] issues. *)
Definition get_nonce_call (address : string) : Invocation.t :=
  {| Invocation.contractAddress := address;
     Invocation.entrypoint := "get_nonce";
     Invocation.calldata := None;
     Invocation.signature := None |}.

(** The outcome of the step [nonce ?? (await this.getNonce())] of
    [execute], before [toBN] is applied to it. *)
Definition nonce_step {Abi TypedData} {U : Utils TypedData}
    (this : Account Abi TypedData) (details : InvocationsDetails)
    (log : list (event Abi TypedData))
    : (exn + BigNumberish) * list (event Abi TypedData) :=
  match nonce details with
  | Some n => (inr n, log)
  | None =>
      match getNonce this log with
      | (inl e, log1) => (inl e, log1)
      | (inr n, log1) => (inr (BnString n), log1)
      end
  end.

(** An exchange carries the nonce [b]: a signing request names it in its
    details, a submission ends its calldata with it. *)
Definition carries_nonce {Abi TypedData} (ev : event Abi TypedData) (b : BN)
    : Prop :=
  match ev with
  | SignTransaction _ details _ => signerNonce details = b
  | InvokeFunction invocation =>
      exists front,
        Invocation.calldata invocation = Some (front ++ [BN_toString b])
  | _ => False
  end.

(** ** Stub collaborators

    Stand-ins for the gateway, the signer and the helper modules, on
    which the model runs.  They implement just what the facade consumes. *)

Module Stub.

Definition Abi : Type := unit.

(** A typed-data document, here already serialised. *)
Definition TypedData : Type := string.

(** The field prime of the curve. *)
Definition FIELD_PRIME : Z := 2 ^ 251 + 17 * 2 ^ 192 + 1.

(** A string is read as hexadecimal after a [0x] prefix and as decimal
    otherwise. *)
Definition parse (s : string) : option Z :=
  match s with
  | String "0"%char (String "x"%char digits) =>
      option_map Z.of_hex_uint (HexadecimalString.NilZero.uint_of_string digits)
  | _ => option_map Z.of_uint (DecimalString.NilZero.uint_of_string s)
  end.

Definition toBN (x : BigNumberish) : exn + BN :=
  match x with
  | BnString s =>
      match parse s with
      | Some z => inr z
      | None => inl (Error "Invalid character")
      end
  | BnNumber n => inr n
  | BnBN b => inr b
  end.

Definition toHex (b : BN) : string :=
  "0x" ++ HexadecimalString.NilZero.string_of_uint (N.to_hex_uint (Z.to_N b)).

Definition getSelectorFromName (name : string) : string :=
  "selector:" ++ name.

Definition getMessageHash (typedData : TypedData) (account : string)
    : exn + string :=
  if (String.length typedData =? 0)%nat
  then inl (Error "Invalid typed data")
  else inr (Number_toString (String.length typedData + String.length account)).

Definition representable (s : string) : bool :=
  match parse s with
  | Some z => (0 <=? z)%Z && (z <? FIELD_PRIME)%Z
  | None => false
  end.

Definition utils : Utils TypedData :=
  @Build_Utils TypedData toBN (inr 0%Z) toHex getSelectorFromName
    getMessageHash representable.

(** A gateway that answers: the account's nonce is 5, every other read
    returns one element, every submission is received. *)
Definition received : AddTransactionResponse :=
  {| code := "TRANSACTION_RECEIVED"; transaction_hash := "0xabc" |}.

Definition gateway : Provider Abi TypedData := {|
  callContract _ invocation :=
    inr {| result :=
             if String.eqb (Invocation.entrypoint invocation) "get_nonce"
             then ["0x5"]
             else ["1"] |};
  invokeFunction _ _ := inr received
|}.

(** A gateway that answers every read with an empty result. *)
Definition terseGateway : Provider Abi TypedData := {|
  callContract _ _ := inr {| result := [] |};
  invokeFunction _ _ := inr received
|}.

(** A gateway that cannot be reached. *)
Definition offline : Provider Abi TypedData := {|
  callContract _ _ := inl (Error "Network Error");
  invokeFunction _ _ := inl (Error "Network Error")
|}.

Definition keySigner : SignerInterface.t Abi TypedData := {|
  SignerInterface.signTransaction _ _ _ _ := inr [BnString "11"; BnString "12"];
  SignerInterface.signMessage _ _ _ := inr [BnString "21"; BnString "22"]
|}.

Definition account : Account Abi TypedData :=
  {| provider := gateway; address := "0xacc"; signer := keySigner |}.

Definition terseAccount : Account Abi TypedData :=
  {| provider := terseGateway; address := "0xacc"; signer := keySigner |}.

Definition strandedAccount : Account Abi TypedData :=
  {| provider := offline; address := "0xacc"; signer := keySigner |}.

(** The scenario of the specification: transfer to [0x1] with calldata
    [["0x2", 100]] and nonce 5. *)
Definition transfer : ExecuteInvocation.t :=
  {| ExecuteInvocation.contractAddress := "0x1";
     ExecuteInvocation.entrypoint := "transfer";
     ExecuteInvocation.calldata := Some [BnString "0x2"; BnNumber 100] |}.

(** An invocation without arguments, its calldata left out. *)
Definition ping : ExecuteInvocation.t :=
  {| ExecuteInvocation.contractAddress := "0x1";
     ExecuteInvocation.entrypoint := "ping";
     ExecuteInvocation.calldata := None |}.

Definition override5 : InvocationsDetails := {| nonce := Some (BnNumber 5) |}.

Definition noOverride : InvocationsDetails := {| nonce := None |}.

Definition signature : Signature := [BnString "0x2"; BnNumber 7].

End Stub.

(** ** Further vocabulary *)

Definition is_SignTransaction {Abi TypedData} (ev : event Abi TypedData)
    : bool :=
  match ev with
  | SignTransaction _ _ _ => true
  | _ => false
  end.

(** ** Further stub collaborators *)

Module Faulty.

(** A signer that refuses to sign. *)
Definition refusingSigner : SignerInterface.t Stub.Abi Stub.TypedData := {|
  SignerInterface.signTransaction _ _ _ _ := inl (Error "User abort");
  SignerInterface.signMessage _ _ _ := inl (Error "User abort")
|}.

Definition lockedAccount : Account Stub.Abi Stub.TypedData :=
  {| provider := Stub.gateway; address := "0xacc"; signer := refusingSigner |}.

(** The transfer of the scenario with its calldata written otherwise. *)
Definition transferAgain : ExecuteInvocation.t :=
  {| ExecuteInvocation.contractAddress := "0x1";
     ExecuteInvocation.entrypoint := "transfer";
     ExecuteInvocation.calldata := Some [BnNumber 2; BnString "0x64"] |}.

(** A transfer whose second argument is not a number. *)
Definition garbled : ExecuteInvocation.t :=
  {| ExecuteInvocation.contractAddress := "0x1";
     ExecuteInvocation.entrypoint := "transfer";
     ExecuteInvocation.calldata :=
       Some [BnString "0x2"; BnString "zz"; BnNumber 3] |}.

Definition garbledOverride : InvocationsDetails :=
  {| nonce := Some (BnString "zz") |}.

End Faulty.

(** * The gateway functions (src/index.ts)

    Eight functions, each one HTTP request through axios wrapped in a
    promise that resolves with [resp.data] and rejects with what axios
    rejected with. *)

Module Gateway.

Definition API_URL : string := "https://alpha2.starknet.io/".

Definition FEEDER_GATEWAY_URL : string := API_URL ++ "/feeder_gateway".

Definition GATEWAY_URL : string := API_URL ++ "/gateway".

Section Http.

(** [object] is what the functions pass on unread: request bodies and
    response data.  [number] is the type of the ids; a template literal
    renders one with [numberToString]. *)
Context {object number : Type}.

Variable numberToString : number -> string.

(** One HTTP request. *)
Inductive request : Type :=
| Get (url : string)
| Post (url : string) (body : object).

(** The axios response; only [data] is read. *)
Record AxiosResponse : Type := {
  data : object
}.

(** [axios.get] and [axios.post]; the answer may depend on the requests
    made before, [inl] is a rejected promise. *)
Record Axios : Type := {
  get : list request -> string -> exn + AxiosResponse;
  post : list request -> string -> object -> exn + AxiosResponse
}.

Definition Http (A : Type) : Type :=
  list request -> (exn + A) * list request.

Definition axios_get (axios : Axios) (url : string) : Http AxiosResponse :=
  fun log => (get axios log url, log ++ [Get url]).

Definition axios_post (axios : Axios) (url : string) (body : object)
    : Http AxiosResponse :=
  fun log => (post axios log url body, log ++ [Post url body]).

(** [new Promise((resolve, reject) => {
       request.then((resp) => { resolve(resp.data); }).catch(reject); })] *)
Definition resolve_data (request : Http AxiosResponse) : Http object :=
  fun log =>
    match request log with
    | (inr resp, log') => (inr (data resp), log')
    | (inl e, log') => (inl e, log')
    end.

Definition getContractAddresses (axios : Axios) : Http object :=
  resolve_data
    (axios_get axios (FEEDER_GATEWAY_URL ++ "/get_contract_addresses")).

Definition callContract (axios : Axios) (invokeTx : object) (blockId : number)
    : Http object :=
  resolve_data
    (axios_post axios
       (FEEDER_GATEWAY_URL ++ "/call_contract?blockId="
          ++ numberToString blockId)
       invokeTx).

Definition getBlock (axios : Axios) (blockId : number) : Http object :=
  resolve_data
    (axios_get axios
       (FEEDER_GATEWAY_URL ++ "/get_block?blockId=" ++ numberToString blockId)).

Definition getCode (axios : Axios) (contractAddress : string)
    (blockId : number) : Http object :=
  resolve_data
    (axios_get axios
       (FEEDER_GATEWAY_URL ++ "/get_code?contractAddress=" ++ contractAddress
          ++ "&blockId=" ++ numberToString blockId)).

Definition getStorageAt (axios : Axios) (contractAddress : string)
    (key blockId : number) : Http object :=
  resolve_data
    (axios_get axios
       (FEEDER_GATEWAY_URL ++ "/get_storage_at?contractAddress="
          ++ contractAddress ++ "&key=" ++ numberToString key
          ++ "&blockId=" ++ numberToString blockId)).

Definition getTransactionStatus (axios : Axios) (txId : number) : Http object :=
  resolve_data
    (axios_get axios
       (FEEDER_GATEWAY_URL ++ "/get_transaction_status?transactionId="
          ++ numberToString txId)).

Definition getTransaction (axios : Axios) (txId : number) : Http object :=
  resolve_data
    (axios_get axios
       (FEEDER_GATEWAY_URL ++ "/get_transaction?transactionId="
          ++ numberToString txId)).

Definition addTransaction (axios : Axios) (tx : object) : Http object :=
  resolve_data (axios_post axios (GATEWAY_URL ++ "/add_transaction") tx).

(** *** Vocabulary of the statements *)

(** A call of one of the functions of the default export. *)
Inductive call : Type :=
| GetContractAddresses
| CallContract (invokeTx : object) (blockId : number)
| GetBlock (blockId : number)
| GetCode (contractAddress : string) (blockId : number)
| GetStorageAt (contractAddress : string) (key blockId : number)
| GetTransactionStatus (txId : number)
| GetTransaction (txId : number)
| AddTransaction (tx : object).

Definition perform (axios : Axios) (c : call) : Http object :=
  match c with
  | GetContractAddresses => getContractAddresses axios
  | CallContract invokeTx blockId => callContract axios invokeTx blockId
  | GetBlock blockId => getBlock axios blockId
  | GetCode contractAddress blockId => getCode axios contractAddress blockId
  | GetStorageAt contractAddress key blockId =>
      getStorageAt axios contractAddress key blockId
  | GetTransactionStatus txId => getTransactionStatus axios txId
  | GetTransaction txId => getTransaction axios txId
  | AddTransaction tx => addTransaction axios tx
  end.

(** What axios answers to a request after [log]. *)
Definition answer (axios : Axios) (log : list request) (r : request)
    : exn + AxiosResponse :=
  match r with
  | Get url => get axios log url
  | Post url body => post axios log url body
  end.

Definition url_of (r : request) : string :=
  match r with
  | Get url => url
  | Post url _ => url
  end.

Definition body_of (r : request) : option object :=
  match r with
  | Get _ => None
  | Post _ body => Some body
  end.

(** The body a call is given to send, if any. *)
Definition payload (c : call) : option object :=
  match c with
  | CallContract invokeTx _ => Some invokeTx
  | AddTransaction tx => Some tx
  | _ => None
  end.

Definition is_addTransaction (c : call) : bool :=
  match c with
  | AddTransaction _ => true
  | _ => false
  end.

End Http.

Arguments request : clear implicits.
Arguments AxiosResponse : clear implicits.
Arguments Axios : clear implicits.
Arguments call : clear implicits.

(** No character of [s] is an ampersand. *)
Fixpoint ampersand_free (s : string) : bool :=
  match s with
  | EmptyString => true
  | String c s' => negb (Ascii.eqb c "&") && ampersand_free s'
  end.

(** *** Stub of axios *)

Module Stub.

(** Ids are integers, rendered in base ten. *)
Definition numberToString (n : Z) : string := BN_toString n.

(** A server that answers every request with the URL it was asked. *)
Definition echo : Axios string :=
  {| get _ url := inr {| data := url |};
     post _ url _ := inr {| data := url |} |}.

(** A server that cannot be reached. *)
Definition unreachable : Axios string :=
  {| get _ _ := inl (Error "Network Error");
     post _ _ _ := inl (Error "Network Error") |}.

End Stub.

End Gateway.

(** * Properties *)

Section Properties.

Context {Abi TypedData : Type} {U : Utils TypedData}.

Local Abbreviation Account := (Account Abi TypedData).
Local Abbreviation event := (event Abi TypedData).

Implicit Types (this : Account) (log : list event).

(** ** The monad *)

Lemma bind_run {A B} (m : M Abi TypedData A) (k : A -> M Abi TypedData B) log :
  bind m k log =
  match m log with
  | (inl e, log') => (inl e, log')
  | (inr a, log') => k a log'
  end.
Proof. reflexivity. Qed.

(** ** The log *)

Lemma skipn_length_app {A} (l l' : list A) : skipn (length l) (l ++ l') = l'.
Proof. induction l as [|x l IH]; simpl; auto. Qed.

Lemma appended_eq {A} (m : list event -> A * list event) log evs :
  snd (m log) = log ++ evs -> appended m log = evs.
Proof. unfold appended. intros ->. apply skipn_length_app. Qed.

(** Brings [skipn (length log) (log ++ ...)] to what was appended. *)
Ltac appended_norm :=
  cbv zeta; cbn [snd fst];
  repeat rewrite <- app_assoc;
  rewrite ?skipn_length_app, ?skipn_all;
  cbn [app].

Ltac appended_norm_in H :=
  cbv zeta in H; cbn [snd fst] in H;
  repeat rewrite <- app_assoc in H;
  rewrite ?skipn_length_app, ?skipn_all in H;
  cbn [app In] in H.

(** ** The calldata helpers *)

Lemma map_throwing_length {A B} (f : A -> exn + B) xs ys :
  map_throwing f xs = inr ys -> length ys = length xs.
Proof.
  revert ys; induction xs as [|x xs IH]; intros ys; simpl.
  - now intros [= <-].
  - destruct (f x) as [e|y]; [discriminate|].
    destruct (map_throwing f xs) as [e|ys']; [discriminate|].
    intros [= <-]; simpl; now rewrite (IH ys').
Qed.

Lemma decimal_strings_spec (raw : list BigNumberish) (strings : list string) :
  bigNumberishArrayToDecimalStringArray raw = inr strings <->
  exists values, map_throwing toBN raw = inr values /\
                 strings = map BN_toString values.
Proof.
  unfold bigNumberishArrayToDecimalStringArray.
  revert strings; induction raw as [|x raw IH]; intros strings; simpl.
  - split.
    + intros [= <-]; now exists [].
    + intros (values & [= <-] & ->); reflexivity.
  - destruct (toBN x) as [e|b].
    + split; [discriminate|]. now intros (values & ? & _).
    + destruct (map_throwing _ raw) as [e|rest] eqn:Erest.
      * destruct (map_throwing toBN raw) as [e'|values'] eqn:Ev.
        -- split; [discriminate|]. now intros (values & ? & _).
        -- exfalso. destruct (IH (map BN_toString values')) as [_ H].
           discriminate H. now exists values'.
      * destruct (proj1 (IH rest) eq_refl) as (values' & -> & ->).
        split.
        -- intros [= <-]. now exists (b :: values').
        -- intros (values & [= <-] & ->). reflexivity.
Qed.

Lemma decimal_strings_length raw strings :
  bigNumberishArrayToDecimalStringArray raw = inr strings ->
  length strings = length raw.
Proof. apply map_throwing_length. Qed.

(** ** getNonce *)

Lemma getNonce_run this log :
  getNonce this log =
  match callContract (provider this) log (get_nonce_call (address this)) with
  | inl e => (inl e, log ++ [CallContract (get_nonce_call (address this))])
  | inr r =>
      match match result r with
            | r0 :: _ => toBN (BnString r0)
            | [] => toBN_undefined
            end
      with
      | inl e => (inl e, log ++ [CallContract (get_nonce_call (address this))])
      | inr b =>
          (inr (toHex b), log ++ [CallContract (get_nonce_call (address this))])
      end
  end.
Proof.
  unfold getNonce, this_callContract, exchange, get_nonce_call, lift.
  rewrite bind_run.
  destruct (callContract _ _ _) as [e|r]; [reflexivity|].
  rewrite bind_run.
  destruct (match result r with _ :: _ => _ | [] => _ end); reflexivity.
Qed.

(** [getNonce] appends exactly its one read, whatever the outcome. *)
Lemma getNonce_log this log :
  snd (getNonce this log) = log ++ [CallContract (get_nonce_call (address this))].
Proof.
  rewrite getNonce_run.
  destruct (callContract _ _ _) as [e|r]; [reflexivity|].
  destruct (match result r with _ :: _ => _ | [] => _ end); reflexivity.
Qed.

(** ** execute *)

Lemma execute_not_sole this transactions abis details log :
  sole_transaction transactions = None ->
  execute this transactions abis details log =
  (inl (Error "Only one transaction at a time is currently supported"), log).
Proof.
  destruct transactions as [tx|[|tx [|tx' txs]]]; simpl; try discriminate;
    reflexivity.
Qed.

Lemma execute_sole this transactions tx abis details log :
  sole_transaction transactions = Some tx ->
  execute this transactions abis details log =
  execute this (Single tx) abis details log.
Proof.
  destruct transactions as [tx0|[|tx0 [|tx' txs]]]; simpl; try discriminate;
    now intros [= ->].
Qed.

Lemma execute_single_run this tx abis details log :
  execute this (Single tx) abis details log =
  match nonce_step this details log with
  | (inl e, log1) => (inl e, log1)
  | (inr nonce0, log1) =>
      match toBN nonce0 with
      | inl e => (inl e, log1)
      | inr nonceBn =>
          match bigNumberishArrayToDecimalStringArray (inner_calldata tx) with
          | inl e => (inl e, log1)
          | inr calldataDecimal =>
              let inner :=
                {| Invocation.contractAddress := ExecuteInvocation.contractAddress tx;
                   Invocation.entrypoint := ExecuteInvocation.entrypoint tx;
                   Invocation.calldata := Some calldataDecimal;
                   Invocation.signature := None |} in
              let signerDetails :=
                {| walletAddress := address this; signerNonce := nonceBn |} in
              let log2 := log1 ++ [SignTransaction [inner] signerDetails abis] in
              match SignerInterface.signTransaction (signer this) log1 [inner]
                      signerDetails abis
              with
              | inl e => (inl e, log2)
              | inr sg =>
                  let outer :=
                    {| Invocation.contractAddress := address this;
                       Invocation.entrypoint := "execute";
                       Invocation.calldata :=
                         Some (ExecuteInvocation.contractAddress tx
                               :: getSelectorFromName (ExecuteInvocation.entrypoint tx)
                               :: Number_toString (length calldataDecimal)
                               :: calldataDecimal ++ [BN_toString nonceBn]);
                       Invocation.signature := Some sg |} in
                  (invokeFunction (provider this) log2 outer,
                   log2 ++ [InvokeFunction outer])
              end
          end
      end
  end.
Proof.
  unfold execute, nonce_step, inner_calldata, signer_signTransaction,
    super_invokeFunction.
  cbn [bind ret Monad_M].
  unfold M_bind, M_ret, lift, exchange.
  destruct (nonce details) as [n|].
  - destruct (toBN n) as [e|nonceBn]; [reflexivity|].
    destruct (bigNumberishArrayToDecimalStringArray _) as [e|cdd]; [reflexivity|].
    cbv zeta.
    destruct (SignerInterface.signTransaction _ _ _ _ _) as [e|sg]; reflexivity.
  - destruct (getNonce this log) as [[e|s] log1]; [reflexivity|].
    destruct (toBN (BnString s)) as [e|nonceBn]; [reflexivity|].
    destruct (bigNumberishArrayToDecimalStringArray _) as [e|cdd]; [reflexivity|].
    cbv zeta.
    destruct (SignerInterface.signTransaction _ _ _ _ _) as [e|sg]; reflexivity.
Qed.

(** The nonce step appends the [get_nonce] read, or nothing under an
    override. *)
Lemma nonce_step_log this details log :
  snd (nonce_step this details log) =
  match nonce details with
  | Some _ => log
  | None => log ++ [CallContract (get_nonce_call (address this))]
  end.
Proof.
  unfold nonce_step. destruct (nonce details) as [n|]; [reflexivity|].
  rewrite <- (getNonce_log this log).
  now destruct (getNonce this log) as [[e|s] log1].
Qed.

(** What a successful [execute] went through. *)
Lemma execute_success this transactions abis details log resp log' :
  execute this transactions abis details log = (inr resp, log') ->
  exists tx nonce0 log1 nonceBn values sg,
    sole_transaction transactions = Some tx /\
    nonce_step this details log = (inr nonce0, log1) /\
    toBN nonce0 = inr nonceBn /\
    map_throwing toBN (inner_calldata tx) = inr values /\
    log' =
      log1 ++
      [ SignTransaction
          [ {| Invocation.contractAddress := ExecuteInvocation.contractAddress tx;
               Invocation.entrypoint := ExecuteInvocation.entrypoint tx;
               Invocation.calldata := Some (map BN_toString values);
               Invocation.signature := None |} ]
          {| walletAddress := address this; signerNonce := nonceBn |} abis;
        InvokeFunction
          {| Invocation.contractAddress := address this;
             Invocation.entrypoint := "execute";
             Invocation.calldata :=
               Some (ExecuteInvocation.contractAddress tx
                     :: getSelectorFromName (ExecuteInvocation.entrypoint tx)
                     :: Number_toString (length (inner_calldata tx))
                     :: map BN_toString values ++ [BN_toString nonceBn]);
             Invocation.signature := Some sg |} ].
Proof.
  intros Hrun.
  destruct (sole_transaction transactions) as [tx|] eqn:Hsole.
  2:{ rewrite (execute_not_sole _ _ _ _ _ Hsole) in Hrun. discriminate. }
  rewrite (execute_sole _ _ _ _ _ _ Hsole), execute_single_run in Hrun.
  destruct (nonce_step this details log) as [[e|nonce0] log1]; [discriminate|].
  destruct (toBN nonce0) as [e|nonceBn] eqn:Hnonce; [discriminate|].
  destruct (bigNumberishArrayToDecimalStringArray _) as [e|cdd] eqn:Hcd;
    [discriminate|].
  cbv zeta in Hrun.
  destruct (SignerInterface.signTransaction _ _ _ _ _) as [e|sg];
    [discriminate|].
  injection Hrun as _ <-.
  pose proof (decimal_strings_length _ _ Hcd) as Hlen.
  apply decimal_strings_spec in Hcd as (values & Hvalues & ->).
  exists tx, nonce0, log1, nonceBn, values, sg.
  rewrite Hlen, <- app_assoc. simpl. auto.
Qed.

(** C2: an array argument with more than one invocation makes [execute]
    fail at once with the error "Only one transaction at a time is
    currently supported": the log is returned as it was, so no gateway
    read, no signing request and no submission took place. *)
Theorem execute_rejects_batch this transactions abis details log :
  (1 < length transactions)%nat ->
  execute this (Array transactions) abis details log =
    (inl (Error "Only one transaction at a time is currently supported"), log)
  /\ appended (execute this (Array transactions) abis details) log = [].
Proof.
  intros Hlen.
  assert (Hrun : execute this (Array transactions) abis details log =
    (inl (Error "Only one transaction at a time is currently supported"), log)).
  { apply execute_not_sole.
    destruct transactions as [|tx [|tx' txs]]; simpl in *; [lia|lia|reflexivity]. }
  split; [exact Hrun|].
  apply appended_eq. rewrite Hrun. simpl. now rewrite app_nil_r.
Qed.

(** C9: an array argument whose length is not exactly one, the empty
    array included, makes [execute] throw the single-transaction error. *)
Theorem execute_rejects_length_not_one this transactions abis details log :
  length transactions <> 1%nat ->
  execute this (Array transactions) abis details log =
    (inl (Error "Only one transaction at a time is currently supported"), log).
Proof.
  intros Hlen. unfold execute.
  destruct (Nat.eqb_spec (length transactions) 1) as [Heq|_];
    [contradiction|reflexivity].
Qed.

(** Every submission [execute] makes has the layout of the outer
    calldata. *)
Lemma execute_submission_form this transactions abis details log submitted :
  In (InvokeFunction submitted)
     (appended (execute this transactions abis details) log) ->
  exists tx values nonce0 log1 nonceBn sg,
    sole_transaction transactions = Some tx /\
    map_throwing toBN (inner_calldata tx) = inr values /\
    nonce_step this details log = (inr nonce0, log1) /\
    toBN nonce0 = inr nonceBn /\
    submitted =
      {| Invocation.contractAddress := address this;
         Invocation.entrypoint := "execute";
         Invocation.calldata :=
           Some (ExecuteInvocation.contractAddress tx
                 :: getSelectorFromName (ExecuteInvocation.entrypoint tx)
                 :: Number_toString (length (inner_calldata tx))
                 :: map BN_toString values ++ [BN_toString nonceBn]);
         Invocation.signature := Some sg |}.
Proof.
  unfold appended. intros Hin.
  destruct (sole_transaction transactions) as [tx|] eqn:Hsole.
  2:{ rewrite (execute_not_sole _ _ _ _ _ Hsole) in Hin.
      appended_norm_in Hin. contradiction. }
  rewrite (execute_sole _ _ _ _ _ _ Hsole), execute_single_run in Hin.
  pose proof (nonce_step_log this details log) as Hlog1.
  destruct (nonce_step this details log) as [[e|nonce0] log1];
    cbn [snd] in Hlog1.
  { destruct (nonce details); subst log1; appended_norm_in Hin;
      [contradiction|now destruct Hin]. }
  destruct (toBN nonce0) as [e|nonceBn] eqn:Hnonce.
  { destruct (nonce details); subst log1; appended_norm_in Hin;
      [contradiction|now destruct Hin]. }
  destruct (bigNumberishArrayToDecimalStringArray _) as [e|cdd] eqn:Hcd.
  { destruct (nonce details); subst log1; appended_norm_in Hin;
      [contradiction|now destruct Hin]. }
  pose proof (decimal_strings_length _ _ Hcd) as Hlen.
  apply decimal_strings_spec in Hcd as (values & Hvalues & ->).
  rewrite Hlen in Hin. cbv zeta in Hin.
  destruct (SignerInterface.signTransaction _ _ _ _ _) as [e|sg].
  { destruct (nonce details); subst log1; appended_norm_in Hin;
      intuition discriminate. }
  exists tx, values, nonce0, log1, nonceBn, sg.
  do 4 (split; [reflexivity || assumption|]).
  destruct (nonce details); subst log1; appended_norm_in Hin;
    intuition (try discriminate); congruence.
Qed.

(** C1: for an accepted invocation, once the nonce is resolved and
    converted, the inner calldata converted and the wrapped invocation
    signed, [execute] submits to the account's "execute" entrypoint the
    calldata: the inner contract address, the selector of the entrypoint
    name, the inner calldata length, the inner calldata elements in order
    (each as the decimal string of its value), then the nonce (as a
    decimal string).  That submission is its last exchange and its only
    submission, and its answer is the outcome of [execute]. *)
Theorem execute_outer_calldata this transactions tx abis details log
    nonce0 log1 nonceBn values sg :
  sole_transaction transactions = Some tx ->
  nonce_step this details log = (inr nonce0, log1) ->
  toBN nonce0 = inr nonceBn ->
  map_throwing toBN (inner_calldata tx) = inr values ->
  SignerInterface.signTransaction (signer this) log1
    [ {| Invocation.contractAddress := ExecuteInvocation.contractAddress tx;
         Invocation.entrypoint := ExecuteInvocation.entrypoint tx;
         Invocation.calldata := Some (map BN_toString values);
         Invocation.signature := None |} ]
    {| walletAddress := address this; signerNonce := nonceBn |} abis
  = inr sg ->
  let request :=
    SignTransaction
      [ {| Invocation.contractAddress := ExecuteInvocation.contractAddress tx;
           Invocation.entrypoint := ExecuteInvocation.entrypoint tx;
           Invocation.calldata := Some (map BN_toString values);
           Invocation.signature := None |} ]
      {| walletAddress := address this; signerNonce := nonceBn |} abis in
  let outer :=
    {| Invocation.contractAddress := address this;
       Invocation.entrypoint := "execute";
       Invocation.calldata :=
         Some (ExecuteInvocation.contractAddress tx
               :: getSelectorFromName (ExecuteInvocation.entrypoint tx)
               :: Number_toString (length (inner_calldata tx))
               :: map BN_toString values ++ [BN_toString nonceBn]);
       Invocation.signature := Some sg |} in
  execute this transactions abis details log =
    (invokeFunction (provider this) (log1 ++ [request]) outer,
     log1 ++ [request; InvokeFunction outer]) /\
  forall submitted,
    In (InvokeFunction submitted)
       (appended (execute this transactions abis details) log) ->
    submitted = outer.
Proof.
  intros Hsole Hstep Hnonce Hvalues Hsign request outer.
  assert (Hrun : execute this transactions abis details log =
    (invokeFunction (provider this) (log1 ++ [request]) outer,
     log1 ++ [request; InvokeFunction outer])).
  { rewrite (execute_sole _ _ _ _ _ _ Hsole), execute_single_run.
    rewrite Hstep, Hnonce.
    assert (Hcd : bigNumberishArrayToDecimalStringArray (inner_calldata tx) =
                  inr (map BN_toString values))
      by (apply decimal_strings_spec; eauto).
    rewrite Hcd. cbv zeta. rewrite Hsign.
    subst request outer.
    rewrite length_map, (map_throwing_length _ _ _ Hvalues), <- app_assoc.
    reflexivity. }
  split; [exact Hrun|].
  intros submitted. unfold appended. rewrite Hrun.
  pose proof (nonce_step_log this details log) as Hlog1.
  rewrite Hstep in Hlog1. cbn [snd] in Hlog1.
  destruct (nonce details); subst log1; appended_norm;
    cbn [In]; intuition (try discriminate); congruence.
Qed.

(** A successful [execute] has made its submission, last. *)
Lemma execute_success_submits this transactions abis details log resp log' :
  execute this transactions abis details log = (inr resp, log') ->
  exists submitted before,
    log' = before ++ [InvokeFunction submitted] /\
    In (InvokeFunction submitted)
       (appended (execute this transactions abis details) log).
Proof.
  intros Hrun.
  destruct (execute_success _ _ _ _ _ _ _ Hrun)
    as (tx & nonce0 & log1 & nonceBn & values & sg
        & _ & Hstep & _ & _ & Hlog).
  pose proof (nonce_step_log this details log) as Hlog1.
  rewrite Hstep in Hlog1; cbn [snd] in Hlog1.
  unfold appended. rewrite Hrun. cbn [snd]. subst log'.
  eexists. exists (log1 ++ [SignTransaction
    [ {| Invocation.contractAddress := ExecuteInvocation.contractAddress tx;
         Invocation.entrypoint := ExecuteInvocation.entrypoint tx;
         Invocation.calldata := Some (map BN_toString values);
         Invocation.signature := None |} ]
    {| walletAddress := address this; signerNonce := nonceBn |} abis]).
  split; [now rewrite <- app_assoc|].
  destruct (nonce details); subst log1; appended_norm; simpl; auto.
Qed.

(** Whatever [execute] signs or submits carries the nonce of the nonce
    step, and only the step without override reads the gateway. *)
Lemma execute_nonce_carried this transactions tx abis details log :
  sole_transaction transactions = Some tx ->
  match nonce details with
  | Some n =>
      forallb (fun ev => negb (is_CallContract ev))
        (appended (execute this transactions abis details) log) = true /\
      forall ev,
        In ev (appended (execute this transactions abis details) log) ->
        exists nonceBn, toBN n = inr nonceBn /\ carries_nonce ev nonceBn
  | None =>
      (exists rest,
         appended (execute this transactions abis details) log =
         CallContract (get_nonce_call (address this)) :: rest /\
         forallb (fun ev => negb (is_CallContract ev)) rest = true /\
         forall ev,
           In ev rest ->
           exists fetched log1 nonceBn,
             getNonce this log = (inr fetched, log1) /\
             toBN (BnString fetched) = inr nonceBn /\
             carries_nonce ev nonceBn)
  end.
Proof.
  intros Hsole. unfold appended.
  rewrite (execute_sole _ _ _ _ _ _ Hsole), execute_single_run.
  unfold nonce_step.
  destruct (nonce details) as [n|].
  - destruct (toBN n) as [e|nonceBn] eqn:Hn.
    { appended_norm. split; [reflexivity|intros ev []]. }
    destruct (bigNumberishArrayToDecimalStringArray _) as [e|cdd].
    { appended_norm. split; [reflexivity|intros ev []]. }
    cbv zeta.
    destruct (SignerInterface.signTransaction _ _ _ _ _) as [e|sg];
      appended_norm; (split; [reflexivity|]); intros ev Hin; exists nonceBn;
      (split; [reflexivity|]); simpl in Hin.
    + destruct Hin as [<-|[]]. reflexivity.
    + destruct Hin as [<-|[<-|[]]]; [reflexivity|].
      simpl. now exists (ExecuteInvocation.contractAddress tx
                      :: getSelectorFromName (ExecuteInvocation.entrypoint tx)
                      :: Number_toString (length cdd) :: cdd).
  - pose proof (getNonce_log this log) as Hlog.
    destruct (getNonce this log) as [[e|fetched] log1] eqn:Hget;
      simpl in Hlog; subst log1.
    { appended_norm. eexists; repeat split. intros ev []. }
    destruct (toBN (BnString fetched)) as [e|nonceBn] eqn:Hn.
    { appended_norm. eexists; repeat split. intros ev []. }
    destruct (bigNumberishArrayToDecimalStringArray _) as [e|cdd].
    { appended_norm. eexists; repeat split. intros ev []. }
    cbv zeta.
    destruct (SignerInterface.signTransaction _ _ _ _ _) as [e|sg];
      appended_norm; eexists; (split; [reflexivity|]); (split; [reflexivity|]);
      intros ev Hin;
      exists fetched, (log ++ [CallContract (get_nonce_call (address this))]),
        nonceBn;
      (split; [reflexivity|]); (split; [assumption|]); simpl in Hin.
    + destruct Hin as [<-|[]]. reflexivity.
    + destruct Hin as [<-|[<-|[]]]; [reflexivity|].
      simpl. now exists (ExecuteInvocation.contractAddress tx
                      :: getSelectorFromName (ExecuteInvocation.entrypoint tx)
                      :: Number_toString (length cdd) :: cdd).
Qed.

(** Once the nonce step has given a nonce that converts and the inner
    calldata converts, the signing request naming that nonce is made
    next, and if the signer signs, a submission ending with that nonce
    follows. *)
Lemma execute_uses_nonce this transactions tx abis details log
    nonce0 log1 nonceBn values :
  sole_transaction transactions = Some tx ->
  nonce_step this details log = (inr nonce0, log1) ->
  toBN nonce0 = inr nonceBn ->
  map_throwing toBN (inner_calldata tx) = inr values ->
  let inner :=
    {| Invocation.contractAddress := ExecuteInvocation.contractAddress tx;
       Invocation.entrypoint := ExecuteInvocation.entrypoint tx;
       Invocation.calldata := Some (map BN_toString values);
       Invocation.signature := None |} in
  let signerDetails :=
    {| walletAddress := address this; signerNonce := nonceBn |} in
  exists rest,
    snd (execute this transactions abis details log) =
      log1 ++ SignTransaction [inner] signerDetails abis :: rest /\
    forall sg,
      SignerInterface.signTransaction (signer this) log1 [inner] signerDetails
        abis = inr sg ->
      exists submitted,
        rest = [InvokeFunction submitted] /\
        carries_nonce (InvokeFunction submitted : event) nonceBn.
Proof.
  intros Hsole Hstep Hnonce Hvalues inner signerDetails.
  rewrite (execute_sole _ _ _ _ _ _ Hsole), execute_single_run.
  rewrite Hstep, Hnonce.
  assert (Hcd : bigNumberishArrayToDecimalStringArray (inner_calldata tx) =
                inr (map BN_toString values))
    by (apply decimal_strings_spec; eauto).
  rewrite Hcd. cbv zeta. fold inner signerDetails.
  destruct (SignerInterface.signTransaction _ _ _ _ _) as [e|sg0];
    cbn [snd]; eexists; (split; [try rewrite <- app_assoc; reflexivity|]);
    intros sg; [discriminate|intros _].
  eexists. split; [reflexivity|].
  simpl. now eexists (_ :: _ :: _ :: _).
Qed.

(** C6: for an accepted invocation with a nonce override, [execute]
    issues no gateway read at all (so no [get_nonce]); when the override
    and the calldata convert, its first exchange is the signing request
    naming the supplied nonce, and if the signer signs, the submission
    ending with the supplied nonce follows; and nothing it signs or
    submits carries another nonce.  Without an override the first
    exchange is the [get_nonce] read of [getNonce]; when [getNonce]
    returns a nonce that converts and the calldata converts, the signing
    request naming that nonce is the second exchange, followed by the
    submission ending with it if the signer signs; and nothing signed or
    submitted carries another nonce. *)
Theorem execute_nonce_source this transactions tx abis details log :
  sole_transaction transactions = Some tx ->
  match nonce details with
  | Some n =>
      forallb (fun ev => negb (is_CallContract ev))
        (appended (execute this transactions abis details) log) = true /\
      (forall ev,
         In ev (appended (execute this transactions abis details) log) ->
         exists nonceBn, toBN n = inr nonceBn /\ carries_nonce ev nonceBn) /\
      (forall nonceBn values,
         toBN n = inr nonceBn ->
         map_throwing toBN (inner_calldata tx) = inr values ->
         let inner :=
           {| Invocation.contractAddress :=
                ExecuteInvocation.contractAddress tx;
              Invocation.entrypoint := ExecuteInvocation.entrypoint tx;
              Invocation.calldata := Some (map BN_toString values);
              Invocation.signature := None |} in
         let signerDetails :=
           {| walletAddress := address this; signerNonce := nonceBn |} in
         exists rest,
           appended (execute this transactions abis details) log =
             SignTransaction [inner] signerDetails abis :: rest /\
           forall sg,
             SignerInterface.signTransaction (signer this) log [inner]
               signerDetails abis = inr sg ->
             exists submitted,
               rest = [InvokeFunction submitted] /\
               carries_nonce (InvokeFunction submitted : event) nonceBn)
  | None =>
      (exists rest,
         appended (execute this transactions abis details) log =
         CallContract (get_nonce_call (address this)) :: rest /\
         forallb (fun ev => negb (is_CallContract ev)) rest = true /\
         forall ev,
           In ev rest ->
           exists fetched log1 nonceBn,
             getNonce this log = (inr fetched, log1) /\
             toBN (BnString fetched) = inr nonceBn /\
             carries_nonce ev nonceBn) /\
      (forall fetched log1 nonceBn values,
         getNonce this log = (inr fetched, log1) ->
         toBN (BnString fetched) = inr nonceBn ->
         map_throwing toBN (inner_calldata tx) = inr values ->
         let inner :=
           {| Invocation.contractAddress :=
                ExecuteInvocation.contractAddress tx;
              Invocation.entrypoint := ExecuteInvocation.entrypoint tx;
              Invocation.calldata := Some (map BN_toString values);
              Invocation.signature := None |} in
         let signerDetails :=
           {| walletAddress := address this; signerNonce := nonceBn |} in
         exists rest,
           appended (execute this transactions abis details) log =
             CallContract (get_nonce_call (address this))
             :: SignTransaction [inner] signerDetails abis :: rest /\
           forall sg,
             SignerInterface.signTransaction (signer this) log1 [inner]
               signerDetails abis = inr sg ->
             exists submitted,
               rest = [InvokeFunction submitted] /\
               carries_nonce (InvokeFunction submitted : event) nonceBn)
  end.
Proof.
  intros Hsole.
  pose proof (execute_nonce_carried this transactions tx abis details log
                Hsole) as Hcarried.
  destruct (nonce details) as [n|] eqn:Hoverride.
  - destruct Hcarried as [Hreads Hall].
    split; [exact Hreads|]. split; [exact Hall|].
    intros nonceBn values Hn Hvalues inner signerDetails.
    destruct (execute_uses_nonce this transactions tx abis details log
                n log nonceBn values Hsole) as (rest & Hlog & Hsigned);
      [unfold nonce_step; now rewrite Hoverride|assumption|assumption|].
    exists rest. split; [|exact Hsigned].
    unfold appended. rewrite Hlog. apply skipn_length_app.
  - split; [exact Hcarried|].
    intros fetched log1 nonceBn values Hget Hn Hvalues inner signerDetails.
    destruct (execute_uses_nonce this transactions tx abis details log
                (BnString fetched) log1 nonceBn values Hsole)
      as (rest & Hlog & Hsigned);
      [unfold nonce_step; now rewrite Hoverride, Hget|assumption|assumption|].
    exists rest. split; [|exact Hsigned].
    pose proof (getNonce_log this log) as Hlog1.
    rewrite Hget in Hlog1. cbn [snd] in Hlog1. subst log1.
    unfold appended. rewrite Hlog, <- app_assoc. apply skipn_length_app.
Qed.

(** C7: when [execute] resolves the nonce itself and the [get_nonce] read
    is rejected, [execute] rejects with that very error, and the read is
    the only exchange it made: nothing was signed, nothing submitted. *)
Theorem execute_nonce_failure this transactions tx abis details log e :
  sole_transaction transactions = Some tx ->
  nonce details = None ->
  callContract (provider this) log (get_nonce_call (address this)) = inl e ->
  execute this transactions abis details log =
    (inl e, log ++ [CallContract (get_nonce_call (address this))]).
Proof.
  intros Hsole Hnone Hread.
  rewrite (execute_sole _ _ _ _ _ _ Hsole), execute_single_run.
  unfold nonce_step. rewrite Hnone, getNonce_run, Hread. reflexivity.
Qed.

(** ** compileCalldata on a scalar and a flat array *)

Lemma compileValue_flat (xs : list string) :
  compileValue (Arr (map Felt xs)) =
  if forallb representable xs
  then inr (Number_toString (length xs) :: xs)
  else inl (Error "EncodingError").
Proof.
  induction xs as [|x xs IH].
  - reflexivity.
  - simpl in IH |- *. rewrite length_map in IH |- *.
    destruct (representable x); simpl; [|reflexivity].
    match type of IH with
    | match ?t with inl _ => _ | inr _ => _ end = _ => destruct t as [e|body]
    end; destruct (forallb representable xs); try discriminate.
    + exact IH.
    + now injection IH as ->.
Qed.

Lemma compileCalldata_hash_signature (h : string) (sig : list string) :
  compileCalldata [("hash", Felt h); ("signature", Arr (map Felt sig))] =
  if representable h && forallb representable sig
  then inr (h :: Number_toString (length sig) :: sig)
  else inl (Error "EncodingError").
Proof.
  unfold compileCalldata. rewrite compileValue_flat. simpl.
  destruct (representable h); simpl; [|reflexivity].
  destruct (forallb representable sig); [|reflexivity].
  now rewrite app_nil_r.
Qed.

(** ** verifyMessageHash *)

(** [verifyMessageHash], step by step. *)
Lemma verifyMessageHash_run this hash signature log :
  verifyMessageHash this hash signature log =
  match toBN hash with
  | inl _ => (inr false, log)
  | inr h =>
      match bigNumberishArrayToDecimalStringArray signature with
      | inl _ => (inr false, log)
      | inr sig =>
          match compileCalldata
                  [("hash", Felt (BN_toString h));
                   ("signature", Arr (map Felt sig))]
          with
          | inl _ => (inr false, log)
          | inr cd =>
              let call :=
                {| Invocation.contractAddress := address this;
                   Invocation.entrypoint := "is_valid_signature";
                   Invocation.calldata := Some cd;
                   Invocation.signature := None |} in
              (inr (resolved (callContract (provider this) log call)),
               log ++ [CallContract call])
          end
      end
  end.
Proof.
  unfold verifyMessageHash, this_callContract.
  cbn [bind ret catch Monad_M MonadExc_M].
  unfold try_catch, M_bind, M_ret, lift, exchange.
  destruct (toBN hash) as [e|h]; [reflexivity|].
  destruct (bigNumberishArrayToDecimalStringArray signature) as [e|sig];
    [reflexivity|].
  destruct (compileCalldata _) as [e|cd]; [reflexivity|].
  cbv zeta.
  destruct (callContract _ _ _) as [e|r]; reflexivity.
Qed.

(** C3: [verifyMessageHash] never rejects; it returns a boolean.  When
    the hash and the signature convert and the calldata compiles, it
    issues the delegated [is_valid_signature] read and returns [true] if
    that read succeeds and [false] if it fails, whatever the failure.
    Only when the hash or the signature does not convert or the calldata
    does not compile does it issue no read, and then it returns
    [false]. *)
Theorem verifyMessageHash_swallows_failure this hash signature log :
  exists b log',
    verifyMessageHash this hash signature log = (inr b, log') /\
    match toBN hash with
    | inl _ => log' = log /\ b = false
    | inr h =>
        match bigNumberishArrayToDecimalStringArray signature with
        | inl _ => log' = log /\ b = false
        | inr sig =>
            match compileCalldata
                    [("hash", Felt (BN_toString h));
                     ("signature", Arr (map Felt sig))]
            with
            | inl _ => log' = log /\ b = false
            | inr cd =>
                let call :=
                  {| Invocation.contractAddress := address this;
                     Invocation.entrypoint := "is_valid_signature";
                     Invocation.calldata := Some cd;
                     Invocation.signature := None |} in
                log' = log ++ [CallContract call] /\
                match callContract (provider this) log call with
                | inr _ => b = true
                | inl _ => b = false
                end
            end
        end
    end.
Proof.
  rewrite verifyMessageHash_run.
  destruct (toBN hash) as [e|h]; [exists false, log; auto|].
  destruct (bigNumberishArrayToDecimalStringArray signature) as [e|sig];
    [exists false, log; auto|].
  destruct (compileCalldata _) as [e|cd]; [exists false, log; auto|].
  cbv zeta. do 2 eexists. split; [reflexivity|]. split; [reflexivity|].
  now destruct (callContract _ _ _).
Qed.

(** When the hash and the signature convert and are representable, the
    delegated read is issued, and it is the only exchange. *)
Lemma verifyMessageHash_issues this hash signature log h values :
  toBN hash = inr h ->
  map_throwing toBN signature = inr values ->
  representable (BN_toString h) = true ->
  forallb representable (map BN_toString values) = true ->
  appended (verifyMessageHash this hash signature) log =
  [ CallContract
      {| Invocation.contractAddress := address this;
         Invocation.entrypoint := "is_valid_signature";
         Invocation.calldata :=
           Some (BN_toString h
                 :: Number_toString (length signature)
                 :: map BN_toString values);
         Invocation.signature := None |} ].
Proof.
  intros Hh Hvalues Hrh Hrs. unfold appended.
  rewrite verifyMessageHash_run, Hh.
  assert (Hsig : bigNumberishArrayToDecimalStringArray signature =
                 inr (map BN_toString values))
    by (apply decimal_strings_spec; eauto).
  rewrite Hsig, compileCalldata_hash_signature, Hrh, Hrs.
  rewrite length_map, (map_throwing_length _ _ _ Hvalues).
  cbn [andb]. now appended_norm.
Qed.

(** A read that [verifyMessageHash] issued has the calldata layout. *)
Lemma verifyMessageHash_read_form this hash signature log call :
  In (CallContract call) (appended (verifyMessageHash this hash signature) log) ->
  exists h values,
    toBN hash = inr h /\
    map_throwing toBN signature = inr values /\
    call =
      {| Invocation.contractAddress := address this;
         Invocation.entrypoint := "is_valid_signature";
         Invocation.calldata :=
           Some (BN_toString h
                 :: Number_toString (length signature)
                 :: map BN_toString values);
         Invocation.signature := None |}.
Proof.
  unfold appended. rewrite verifyMessageHash_run.
  destruct (toBN hash) as [e|h]; [appended_norm; intros []|].
  destruct (bigNumberishArrayToDecimalStringArray signature) as [e|sig] eqn:Hsig;
    [appended_norm; intros []|].
  pose proof (decimal_strings_length _ _ Hsig) as Hlen.
  apply decimal_strings_spec in Hsig as (values & Hvalues & ->).
  rewrite compileCalldata_hash_signature.
  destruct (_ && _); [|appended_norm; intros []].
  appended_norm. intros [[= <-]|[]].
  exists h, values. now rewrite <- Hlen.
Qed.

(** C5: when the hash and the signature convert (to values the field
    holds), [verifyMessageHash] issues exactly one exchange, the read of
    the account's [is_valid_signature] entrypoint with calldata: the
    hash, the signature length, then the signature elements in order
    (values as decimal strings); and whenever it issues a read at all,
    the read has that calldata. *)
Theorem verifyMessageHash_calldata this hash signature log h values :
  toBN hash = inr h ->
  map_throwing toBN signature = inr values ->
  representable (BN_toString h) = true ->
  forallb representable (map BN_toString values) = true ->
  let call :=
    {| Invocation.contractAddress := address this;
       Invocation.entrypoint := "is_valid_signature";
       Invocation.calldata :=
         Some (BN_toString h
               :: Number_toString (length signature)
               :: map BN_toString values);
       Invocation.signature := None |} in
  verifyMessageHash this hash signature log =
    (inr (resolved (callContract (provider this) log call)),
     log ++ [CallContract call]) /\
  forall log0 issued,
    In (CallContract issued)
       (appended (verifyMessageHash this hash signature) log0) ->
    issued = call.
Proof.
  intros Hh Hvalues Hrh Hrs call. split.
  - rewrite verifyMessageHash_run, Hh.
    assert (Hsig : bigNumberishArrayToDecimalStringArray signature =
                   inr (map BN_toString values))
      by (apply decimal_strings_spec; eauto).
    rewrite Hsig, compileCalldata_hash_signature, Hrh, Hrs.
    rewrite length_map, (map_throwing_length _ _ _ Hvalues).
    reflexivity.
  - intros log0 issued Hin.
    destruct (verifyMessageHash_read_form _ _ _ _ _ Hin)
      as (h' & values' & Hh' & Hvalues' & ->).
    rewrite Hh in Hh'. injection Hh' as <-.
    rewrite Hvalues in Hvalues'. injection Hvalues' as <-.
    reflexivity.
Qed.


(** ** verifyMessage *)

(** C4: [verifyMessage] is [hashMessage] followed by [verifyMessageHash]:
    on the hash that [hashMessage] returns for the typed data, it returns
    what [verifyMessageHash] returns for that hash and the signature. *)
Theorem verifyMessage_composes this typedData signature log hash :
  fst (hashMessage this typedData log) = inr hash ->
  verifyMessage this typedData signature log =
  verifyMessageHash this (BnString hash) signature log.
Proof.
  unfold verifyMessage. rewrite bind_run.
  unfold hashMessage, lift. simpl. now intros ->.
Qed.

(** ** Omitted calldata *)

(** C8: an invocation without a [calldata] field is executed as one with
    the empty calldata.  Once the nonce is resolved nothing of the
    preparation fails: the signer is asked about an invocation with empty
    calldata and, if it signs, the submission is made with the length
    prefix "0" and no elements between it and the nonce. *)
Theorem execute_omitted_calldata this transactions tx abis details log :
  sole_transaction transactions = Some tx ->
  ExecuteInvocation.calldata tx = None ->
  execute this transactions abis details log =
    execute this
      (Single {| ExecuteInvocation.contractAddress :=
                   ExecuteInvocation.contractAddress tx;
                 ExecuteInvocation.entrypoint := ExecuteInvocation.entrypoint tx;
                 ExecuteInvocation.calldata := Some [] |})
      abis details log /\
  forall nonce0 log1 nonceBn,
    nonce_step this details log = (inr nonce0, log1) ->
    toBN nonce0 = inr nonceBn ->
    let inner :=
      {| Invocation.contractAddress := ExecuteInvocation.contractAddress tx;
         Invocation.entrypoint := ExecuteInvocation.entrypoint tx;
         Invocation.calldata := Some [];
         Invocation.signature := None |} in
    let signerDetails :=
      {| walletAddress := address this; signerNonce := nonceBn |} in
    let log2 := log1 ++ [SignTransaction [inner] signerDetails abis] in
    match SignerInterface.signTransaction (signer this) log1 [inner]
            signerDetails abis
    with
    | inl e => execute this transactions abis details log = (inl e, log2)
    | inr sg =>
        let outer :=
          {| Invocation.contractAddress := address this;
             Invocation.entrypoint := "execute";
             Invocation.calldata :=
               Some [ ExecuteInvocation.contractAddress tx;
                      getSelectorFromName (ExecuteInvocation.entrypoint tx);
                      "0";
                      BN_toString nonceBn ];
             Invocation.signature := Some sg |} in
        execute this transactions abis details log =
          (invokeFunction (provider this) log2 outer,
           log2 ++ [InvokeFunction outer])
    end.
Proof.
  intros Hsole Hnone.
  rewrite (execute_sole _ _ _ _ _ _ Hsole), !execute_single_run.
  unfold inner_calldata. rewrite Hnone. simpl ExecuteInvocation.calldata.
  cbn [ExecuteInvocation.contractAddress ExecuteInvocation.entrypoint].
  split; [reflexivity|].
  intros nonce0 log1 nonceBn -> ->. simpl.
  now destruct (SignerInterface.signTransaction _ _ _ _ _).
Qed.

End Properties.

(** * The model on the stub collaborators *)

Section Runs.

Local Abbreviation execute := (execute (U := Stub.utils)).
Local Abbreviation verifyMessageHash := (verifyMessageHash (U := Stub.utils)).
Local Abbreviation verifyMessage := (verifyMessage (U := Stub.utils)).
Local Abbreviation getNonce := (getNonce (U := Stub.utils)).

(** The scenario of the specification, nonce overridden: one signing
    request, then the submission. *)
Example execute_transfer_override :
  execute Stub.account (Single Stub.transfer) [] Stub.override5 [] =
  (inr Stub.received,
   [ SignTransaction
       [ {| Invocation.contractAddress := "0x1";
            Invocation.entrypoint := "transfer";
            Invocation.calldata := Some ["2"; "100"];
            Invocation.signature := None |} ]
       {| walletAddress := "0xacc"; signerNonce := 5%Z |} [];
     InvokeFunction
       {| Invocation.contractAddress := "0xacc";
          Invocation.entrypoint := "execute";
          Invocation.calldata :=
            Some ["0x1"; "selector:transfer"; "2"; "2"; "100"; "5"];
          Invocation.signature := Some [BnString "11"; BnString "12"] |} ]).
Proof. reflexivity. Qed.

(** The same without an override: the nonce is read first. *)
Example execute_transfer_fetched :
  appended (execute Stub.account (Array [Stub.transfer]) [] Stub.noOverride) [] =
  [ CallContract (get_nonce_call "0xacc");
    SignTransaction
      [ {| Invocation.contractAddress := "0x1";
           Invocation.entrypoint := "transfer";
           Invocation.calldata := Some ["2"; "100"];
           Invocation.signature := None |} ]
      {| walletAddress := "0xacc"; signerNonce := 5%Z |} [];
    InvokeFunction
      {| Invocation.contractAddress := "0xacc";
         Invocation.entrypoint := "execute";
         Invocation.calldata :=
           Some ["0x1"; "selector:transfer"; "2"; "2"; "100"; "5"];
         Invocation.signature := Some [BnString "11"; BnString "12"] |} ].
Proof. reflexivity. Qed.

Example getNonce_stub : getNonce Stub.account [] =
  (inr "0x5", [CallContract (get_nonce_call "0xacc")]).
Proof. reflexivity. Qed.

Example verifyMessageHash_offline :
  fst (verifyMessageHash Stub.strandedAccount (BnString "0x10") Stub.signature [])
  = inr false.
Proof. reflexivity. Qed.

(** [verifyMessage] does reject when the hashing throws. *)
Example verifyMessage_hash_throws :
  verifyMessage Stub.account "" Stub.signature [] =
  (inl (Error "Invalid typed data"), []).
Proof. reflexivity. Qed.

Lemma execute_outer_calldata_witness :
  execute Stub.account (Single Stub.transfer) [] Stub.override5 [] =
  (inr Stub.received,
   [ SignTransaction
       [ {| Invocation.contractAddress := "0x1";
            Invocation.entrypoint := "transfer";
            Invocation.calldata := Some ["2"; "100"];
            Invocation.signature := None |} ]
       {| walletAddress := "0xacc"; signerNonce := 5%Z |} [];
     InvokeFunction
       {| Invocation.contractAddress := "0xacc";
          Invocation.entrypoint := "execute";
          Invocation.calldata :=
            Some ["0x1"; "selector:transfer"; "2"; "2"; "100"; "5"];
          Invocation.signature := Some [BnString "11"; BnString "12"] |} ]).
Proof.
  exact (proj1 (execute_outer_calldata (U := Stub.utils) Stub.account
                  (Single Stub.transfer) Stub.transfer [] Stub.override5 []
                  (BnNumber 5) [] 5%Z [2%Z; 100%Z]
                  [BnString "11"; BnString "12"]
                  eq_refl eq_refl eq_refl eq_refl eq_refl)).
Defined.

Lemma execute_rejects_batch_witness :
  (1 < length [Stub.transfer; Stub.ping])%nat /\
  execute Stub.account (Array [Stub.transfer; Stub.ping]) [] Stub.noOverride []
  = (inl (Error "Only one transaction at a time is currently supported"), []).
Proof.
  split; [simpl; lia|].
  apply (execute_rejects_batch (U := Stub.utils) Stub.account
           [Stub.transfer; Stub.ping] [] Stub.noOverride []).
  simpl; lia.
Defined.

Lemma execute_rejects_length_not_one_witness :
  execute Stub.account (Array []) [] Stub.override5 [] =
  (inl (Error "Only one transaction at a time is currently supported"), []).
Proof.
  apply (execute_rejects_length_not_one (U := Stub.utils) Stub.account []
           [] Stub.override5 []).
  simpl; lia.
Defined.

Lemma execute_nonce_source_witness :
  (exists rest,
     appended (execute Stub.account (Single Stub.transfer) [] Stub.override5)
       [] =
     SignTransaction
       [ {| Invocation.contractAddress := "0x1";
            Invocation.entrypoint := "transfer";
            Invocation.calldata := Some ["2"; "100"];
            Invocation.signature := None |} ]
       {| walletAddress := "0xacc"; signerNonce := 5%Z |} [] :: rest) /\
  (exists rest,
     appended (execute Stub.account (Single Stub.transfer) []
                 Stub.noOverride) [] =
     CallContract (get_nonce_call "0xacc")
     :: SignTransaction
          [ {| Invocation.contractAddress := "0x1";
               Invocation.entrypoint := "transfer";
               Invocation.calldata := Some ["2"; "100"];
               Invocation.signature := None |} ]
          {| walletAddress := "0xacc"; signerNonce := 5%Z |} [] :: rest).
Proof.
  split.
  - destruct (execute_nonce_source (U := Stub.utils) Stub.account
                (Single Stub.transfer) Stub.transfer [] Stub.override5 []
                eq_refl) as (_ & _ & Hsigns).
    destruct (Hsigns 5%Z [2%Z; 100%Z] eq_refl eq_refl) as (rest & Happ & _).
    exists rest. exact Happ.
  - destruct (execute_nonce_source (U := Stub.utils) Stub.account
                (Single Stub.transfer) Stub.transfer [] Stub.noOverride []
                eq_refl) as (_ & Hsigns).
    destruct (Hsigns "0x5" [CallContract (get_nonce_call "0xacc")] 5%Z
                [2%Z; 100%Z] eq_refl eq_refl eq_refl) as (rest & Happ & _).
    exists rest. exact Happ.
Defined.

Lemma execute_nonce_failure_witness :
  execute Stub.strandedAccount (Array [Stub.transfer]) [] Stub.noOverride [] =
  (inl (Error "Network Error"), [CallContract (get_nonce_call "0xacc")]).
Proof.
  exact (execute_nonce_failure (U := Stub.utils) Stub.strandedAccount
           (Array [Stub.transfer]) Stub.transfer [] Stub.noOverride []
           (Error "Network Error") eq_refl eq_refl eq_refl).
Defined.

Lemma execute_omitted_calldata_witness :
  execute Stub.account (Single Stub.ping) [] Stub.override5 [] =
  (inr Stub.received,
   [ SignTransaction
       [ {| Invocation.contractAddress := "0x1";
            Invocation.entrypoint := "ping";
            Invocation.calldata := Some [];
            Invocation.signature := None |} ]
       {| walletAddress := "0xacc"; signerNonce := 5%Z |} [];
     InvokeFunction
       {| Invocation.contractAddress := "0xacc";
          Invocation.entrypoint := "execute";
          Invocation.calldata := Some ["0x1"; "selector:ping"; "0"; "5"];
          Invocation.signature := Some [BnString "11"; BnString "12"] |} ]).
Proof.
  destruct (execute_omitted_calldata (U := Stub.utils) Stub.account
              (Single Stub.ping) Stub.ping [] Stub.override5 [] eq_refl eq_refl)
    as [_ Hrun].
  exact (Hrun (BnNumber 5) [] 5%Z eq_refl eq_refl).
Defined.

Lemma verifyMessageHash_calldata_witness :
  verifyMessageHash Stub.account (BnString "0x10") Stub.signature [] =
  (inr true,
   [ CallContract
       {| Invocation.contractAddress := "0xacc";
          Invocation.entrypoint := "is_valid_signature";
          Invocation.calldata := Some ["16"; "2"; "2"; "7"];
          Invocation.signature := None |} ]).
Proof.
  exact (proj1 (verifyMessageHash_calldata (U := Stub.utils) Stub.account
                  (BnString "0x10") Stub.signature [] 16%Z [2%Z; 7%Z]
                  eq_refl eq_refl eq_refl eq_refl)).
Defined.


Lemma verifyMessage_composes_witness :
  verifyMessage Stub.account "doc" Stub.signature [] =
  verifyMessageHash Stub.account (BnString "8") Stub.signature [].
Proof.
  apply (verifyMessage_composes (U := Stub.utils) Stub.account "doc"
           Stub.signature [] "8").
  reflexivity.
Defined.

End Runs.

(** * Further properties of the class Account *)

(** What was appended to a log, in the goal and in a hypothesis. *)
Ltac trace_norm :=
  cbv zeta; cbn [snd fst];
  repeat rewrite <- app_assoc;
  rewrite ?skipn_length_app, ?skipn_all;
  cbn [app].

Ltac trace_norm_in H :=
  cbv zeta in H; cbn [snd fst] in H;
  repeat rewrite <- app_assoc in H;
  rewrite ?skipn_length_app, ?skipn_all in H;
  cbn [app In] in H.

(** Closes a goal in which an empty list is said to hold an element. *)
Ltac no_room :=
  match goal with
  | H : [] = _ ++ _ :: _ |- _ => now apply app_cons_not_nil in H
  end.

Section AccountProperties.

Context {Abi TypedData : Type} {U : Utils TypedData}.

Local Abbreviation Account := (Account Abi TypedData).
Local Abbreviation event := (event Abi TypedData).

Implicit Types (this : Account) (log : list event).

(** ** Decimal strings *)

Lemma BN_toString_inj (a b : BN) : BN_toString a = BN_toString b -> a = b.
Proof.
  unfold BN_toString. intros Heq.
  apply DecimalZ.to_int_inj.
  assert (Hnonnil : forall z : Z,
             Z.to_int z <> Decimal.Pos Decimal.Nil /\
             Z.to_int z <> Decimal.Neg Decimal.Nil).
  { intros [|p|p]; simpl; split; try discriminate;
      intros [= H]; now apply DecimalPos.Unsigned.to_uint_nonnil in H. }
  apply (f_equal DecimalString.NilZero.int_of_string) in Heq.
  rewrite !DecimalString.NilZero.isi in Heq by apply Hnonnil.
  now injection Heq.
Qed.

(** ** getNonce *)

(** X1: whatever the outcome, [getNonce] makes exactly one exchange, the
    read of [get_nonce] at the account's own address without calldata;
    and when that read is rejected it rejects with the same error. *)
Theorem getNonce_single_read this log :
  appended (getNonce this) log =
    [CallContract (get_nonce_call (address this))] /\
  forall e,
    callContract (provider this) log (get_nonce_call (address this)) = inl e ->
    fst (getNonce this log) = inl e.
Proof.
  split.
  - apply appended_eq, getNonce_log.
  - intros e He. now rewrite getNonce_run, He.
Qed.

(** X2: the nonce [getNonce] returns is [toHex (toBN first)] for the first
    element of the read's result; whatever follows the first element is
    ignored, and a first element that [toBN] rejects makes [getNonce]
    reject with that error. *)
Theorem getNonce_first_element this log response first others :
  callContract (provider this) log (get_nonce_call (address this)) =
    inr response ->
  result response = first :: others ->
  fst (getNonce this log) =
  match toBN (BnString first) with
  | inl e => inl e
  | inr b => inr (toHex b)
  end.
Proof.
  intros Hread Hresult. rewrite getNonce_run, Hread, Hresult.
  now destruct (toBN (BnString first)).
Qed.

(** ** execute *)

(** Everything about a submission [execute] made. *)
Lemma execute_submission this transactions abis details log submitted :
  In (InvokeFunction submitted)
     (appended (execute this transactions abis details) log) ->
  exists tx nonce0 log1 nonceBn values sg,
    sole_transaction transactions = Some tx /\
    nonce_step this details log = (inr nonce0, log1) /\
    toBN nonce0 = inr nonceBn /\
    map_throwing toBN (inner_calldata tx) = inr values /\
    let inner :=
      {| Invocation.contractAddress := ExecuteInvocation.contractAddress tx;
         Invocation.entrypoint := ExecuteInvocation.entrypoint tx;
         Invocation.calldata := Some (map BN_toString values);
         Invocation.signature := None |} in
    let signerDetails :=
      {| walletAddress := address this; signerNonce := nonceBn |} in
    let request := SignTransaction [inner] signerDetails abis in
    SignerInterface.signTransaction (signer this) log1 [inner] signerDetails
      abis = inr sg /\
    submitted =
      {| Invocation.contractAddress := address this;
         Invocation.entrypoint := "execute";
         Invocation.calldata :=
           Some (ExecuteInvocation.contractAddress tx
                 :: getSelectorFromName (ExecuteInvocation.entrypoint tx)
                 :: Number_toString (length (map BN_toString values))
                 :: map BN_toString values ++ [BN_toString nonceBn]);
         Invocation.signature := Some sg |} /\
    execute this transactions abis details log =
      (invokeFunction (provider this) (log1 ++ [request]) submitted,
       log1 ++ [request; InvokeFunction submitted]).
Proof.
  unfold appended. intros Hin.
  destruct (sole_transaction transactions) as [tx|] eqn:Hsole.
  2:{ rewrite (execute_not_sole _ _ _ _ _ Hsole) in Hin.
      trace_norm_in Hin. contradiction. }
  rewrite (execute_sole _ _ _ _ _ _ Hsole), execute_single_run in Hin.
  rewrite (execute_sole _ _ _ _ _ _ Hsole), execute_single_run.
  pose proof (nonce_step_log this details log) as Hlog1.
  destruct (nonce_step this details log) as [[e|nonce0] log1];
    cbn [snd] in Hlog1.
  { destruct (nonce details); subst log1; trace_norm_in Hin;
      [contradiction|now destruct Hin]. }
  destruct (toBN nonce0) as [e|nonceBn] eqn:Hnonce.
  { destruct (nonce details); subst log1; trace_norm_in Hin;
      [contradiction|now destruct Hin]. }
  destruct (bigNumberishArrayToDecimalStringArray _) as [e|cdd] eqn:Hcd.
  { destruct (nonce details); subst log1; trace_norm_in Hin;
      [contradiction|now destruct Hin]. }
  apply decimal_strings_spec in Hcd as (values & Hvalues & ->).
  cbv zeta in Hin |- *.
  destruct (SignerInterface.signTransaction _ _ _ _ _) as [e|sg] eqn:Hsign.
  { destruct (nonce details); subst log1; trace_norm_in Hin;
      intuition discriminate. }
  exists tx, nonce0, log1, nonceBn, values, sg.
  do 5 (split; [reflexivity || assumption|]).
  assert (Hsub : submitted =
      {| Invocation.contractAddress := address this;
         Invocation.entrypoint := "execute";
         Invocation.calldata :=
           Some (ExecuteInvocation.contractAddress tx
                 :: getSelectorFromName (ExecuteInvocation.entrypoint tx)
                 :: Number_toString (length (map BN_toString values))
                 :: map BN_toString values ++ [BN_toString nonceBn]);
         Invocation.signature := Some sg |}).
  { destruct (nonce details); subst log1; trace_norm_in Hin;
      intuition (try discriminate); congruence. }
  split; [exact Hsub|].
  rewrite <- Hsub, <- app_assoc. reflexivity.
Qed.

(** The log after the nonce step is the log before it plus at most the
    [get_nonce] read. *)
Lemma nonce_step_reads this details log :
  exists reads,
    snd (nonce_step this details log) = log ++ reads /\
    (reads = [] \/ reads = [CallContract (get_nonce_call (address this))]).
Proof.
  rewrite nonce_step_log. destruct (nonce details).
  - exists []. now rewrite app_nil_r; auto.
  - eexists. split; [reflexivity|now right].
Qed.

(** X3: what [execute] submits is what it had signed.  A submission is
    immediately preceded by the signing request; the request names one
    invocation and the account's own address as wallet; the submission
    carries the signature the signer answered, and its calldata is built
    from that invocation's address, entrypoint and calldata and from the
    nonce of the signing details. *)
Theorem execute_signs_what_it_submits this transactions abis details log
    submitted :
  In (InvokeFunction submitted)
     (appended (execute this transactions abis details) log) ->
  exists before inner signerDetails sg cd,
    appended (execute this transactions abis details) log =
      before ++ [SignTransaction [inner] signerDetails abis;
                 InvokeFunction submitted] /\
    SignerInterface.signTransaction (signer this) (log ++ before) [inner]
      signerDetails abis = inr sg /\
    Invocation.signature submitted = Some sg /\
    walletAddress signerDetails = address this /\
    Invocation.calldata inner = Some cd /\
    Invocation.calldata submitted =
      Some (Invocation.contractAddress inner
            :: getSelectorFromName (Invocation.entrypoint inner)
            :: Number_toString (length cd)
            :: cd ++ [BN_toString (signerNonce signerDetails)]).
Proof.
  intros Hin.
  destruct (execute_submission _ _ _ _ _ _ Hin)
    as (tx & nonce0 & log1 & nonceBn & values & sg
        & _ & Hstep & _ & _ & Hsign & -> & Hrun).
  destruct (nonce_step_reads this details log) as (reads & Hreads & _).
  rewrite Hstep in Hreads; cbn [snd] in Hreads; subst log1.
  exists reads. do 4 eexists.
  split; [|split; [exact Hsign|repeat split]].
  unfold appended. rewrite Hrun. now trace_norm.
Qed.

(** X4: once [execute] has submitted, its outcome is the gateway's answer
    to that submission, unchanged: the response when the gateway accepts,
    the gateway's error when it rejects; and the submission is the last
    exchange. *)
Theorem execute_returns_gateway_answer this transactions abis details log
    submitted :
  In (InvokeFunction submitted)
     (appended (execute this transactions abis details) log) ->
  exists before,
    snd (execute this transactions abis details log) =
      log ++ before ++ [InvokeFunction submitted] /\
    fst (execute this transactions abis details log) =
      invokeFunction (provider this) (log ++ before) submitted.
Proof.
  intros Hin.
  destruct (execute_submission _ _ _ _ _ _ Hin)
    as (tx & nonce0 & log1 & nonceBn & values & sg
        & _ & Hstep & _ & _ & _ & _ & Hrun).
  destruct (nonce_step_reads this details log) as (reads & Hreads & _).
  rewrite Hstep in Hreads; cbn [snd] in Hreads; subst log1.
  rewrite Hrun. cbn [fst snd].
  eexists (reads ++ [_]). rewrite <- !app_assoc. split; reflexivity.
Qed.

(** X5: two submissions with the same calldata, made by any two calls of
    [execute], wrap the same inner contract address, the same selector,
    the same decimal calldata and the same nonce: the outer calldata
    determines what it wraps. *)
Theorem submitted_calldata_determines
    this transactions abis details log submitted tx
    this' transactions' abis' details' log' submitted' tx' :
  In (InvokeFunction submitted)
     (appended (execute this transactions abis details) log) ->
  In (InvokeFunction submitted')
     (appended (execute this' transactions' abis' details') log') ->
  sole_transaction transactions = Some tx ->
  sole_transaction transactions' = Some tx' ->
  Invocation.calldata submitted = Invocation.calldata submitted' ->
  ExecuteInvocation.contractAddress tx = ExecuteInvocation.contractAddress tx'
  /\ getSelectorFromName (ExecuteInvocation.entrypoint tx) =
     getSelectorFromName (ExecuteInvocation.entrypoint tx')
  /\ bigNumberishArrayToDecimalStringArray (inner_calldata tx) =
     bigNumberishArrayToDecimalStringArray (inner_calldata tx')
  /\ exists nonce0 log1 nonce0' log1' nonceBn,
       nonce_step this details log = (inr nonce0, log1) /\
       nonce_step this' details' log' = (inr nonce0', log1') /\
       toBN nonce0 = inr nonceBn /\ toBN nonce0' = inr nonceBn.
Proof.
  intros Hin Hin' Hsole Hsole' Hsame.
  destruct (execute_submission _ _ _ _ _ _ Hin)
    as (tx0 & nonce0 & log1 & nonceBn & values & sg
        & Hs & Hstep & Hnonce & Hvalues & _ & -> & _).
  destruct (execute_submission _ _ _ _ _ _ Hin')
    as (tx0' & nonce0' & log1' & nonceBn' & values' & sg'
        & Hs' & Hstep' & Hnonce' & Hvalues' & _ & -> & _).
  rewrite Hsole in Hs; injection Hs as <-.
  rewrite Hsole' in Hs'; injection Hs' as <-.
  cbn [Invocation.calldata] in Hsame.
  injection Hsame as Haddress Hselector _ Hrest.
  apply app_inj_tail in Hrest as [Hmap Hn].
  apply BN_toString_inj in Hn. subst nonceBn'.
  assert (Hcd : bigNumberishArrayToDecimalStringArray (inner_calldata tx) =
                inr (map BN_toString values))
    by (apply decimal_strings_spec; eauto).
  assert (Hcd' : bigNumberishArrayToDecimalStringArray (inner_calldata tx') =
                 inr (map BN_toString values'))
    by (apply decimal_strings_spec; eauto).
  split; [assumption|]. split; [assumption|].
  split; [now rewrite Hcd, Hcd', Hmap|].
  now exists nonce0, log1, nonce0', log1', nonceBn.
Qed.

(** X6: a signer that rejects the signing request ends [execute]: the
    request is its last exchange, nothing is submitted, and [execute]
    rejects with the signer's error. *)
Theorem execute_signer_failure this transactions abis details log
    before txs signerDetails abis' after e :
  appended (execute this transactions abis details) log =
    before ++ SignTransaction txs signerDetails abis' :: after ->
  SignerInterface.signTransaction (signer this) (log ++ before) txs
    signerDetails abis' = inl e ->
  after = [] /\ fst (execute this transactions abis details log) = inl e.
Proof.
  unfold appended.
  destruct (sole_transaction transactions) as [tx|] eqn:Hsole.
  2:{ rewrite (execute_not_sole _ _ _ _ _ Hsole). trace_norm.
      intros Hnil. now destruct before. }
  rewrite (execute_sole _ _ _ _ _ _ Hsole), execute_single_run.
  destruct (nonce_step_reads this details log) as (reads & Hreads & Hcases).
  destruct (nonce_step this details log) as [[e0|nonce0] log1];
    cbn [snd] in Hreads; subst log1.
  { trace_norm. intros Htrace.
    destruct Hcases as [-> | ->], before as [|? [|? ?]]; discriminate. }
  destruct (toBN nonce0) as [e0|nonceBn].
  { trace_norm. intros Htrace.
    destruct Hcases as [-> | ->], before as [|? [|? ?]]; discriminate. }
  destruct (bigNumberishArrayToDecimalStringArray _) as [e0|cdd].
  { trace_norm. intros Htrace.
    destruct Hcases as [-> | ->], before as [|? [|? ?]]; discriminate. }
  cbv zeta.
  destruct (SignerInterface.signTransaction _ _ _ _ _) as [e0|sg] eqn:Hsign;
    trace_norm; intros Htrace Hfail.
  - destruct Hcases as [-> | ->];
      destruct before as [|b1 [|b2 [|b3 before]]]; cbn [app] in Htrace;
      inversion Htrace; subst; try discriminate; try no_room;
      rewrite Hsign in Hfail; injection Hfail as <-; split; reflexivity.
  - destruct Hcases as [-> | ->];
      destruct before as [|b1 [|b2 [|b3 before]]]; cbn [app] in Htrace;
      inversion Htrace; subst; try discriminate; try no_room;
      rewrite Hsign in Hfail; discriminate.
Qed.

(** X7: the exchanges of one [execute] come in a fixed order and at most
    once each: possibly the [get_nonce] read, then possibly one signing
    request, then possibly one submission, which never comes without the
    signing request before it. *)
Theorem execute_exchange_order this transactions abis details log :
  exists reads rest,
    appended (execute this transactions abis details) log = reads ++ rest /\
    (reads = [] \/ reads = [CallContract (get_nonce_call (address this))]) /\
    (rest = [] \/
     (exists request, rest = [request] /\ is_SignTransaction request = true) \/
     (exists request submitted,
        rest = [request; InvokeFunction submitted] /\
        is_SignTransaction request = true)).
Proof.
  unfold appended.
  destruct (sole_transaction transactions) as [tx|] eqn:Hsole.
  2:{ rewrite (execute_not_sole _ _ _ _ _ Hsole). trace_norm.
      exists [], []. auto. }
  rewrite (execute_sole _ _ _ _ _ _ Hsole), execute_single_run.
  destruct (nonce_step_reads this details log) as (reads & Hreads & Hcases).
  exists reads.
  destruct (nonce_step this details log) as [[e|nonce0] log1];
    cbn [snd] in Hreads; subst log1.
  { trace_norm. exists []. now rewrite app_nil_r; auto. }
  destruct (toBN nonce0) as [e|nonceBn].
  { trace_norm. exists []. now rewrite app_nil_r; auto. }
  destruct (bigNumberishArrayToDecimalStringArray _) as [e|cdd].
  { trace_norm. exists []. now rewrite app_nil_r; auto. }
  cbv zeta.
  destruct (SignerInterface.signTransaction _ _ _ _ _) as [e|sg]; trace_norm.
  - eexists. split; [reflexivity|]. split; [assumption|].
    right; left. eexists. split; reflexivity.
  - eexists. split; [reflexivity|]. split; [assumption|].
    right; right. do 2 eexists. split; reflexivity.
Qed.

(** X8: the inner calldata is converted after the nonce step and before
    the signing.  When the conversion throws, [execute] rejects with that
    error and nothing is signed or submitted, but without an override the
    [get_nonce] read has already been made. *)
Theorem execute_bad_calldata this transactions tx abis details log
    e nonce0 log1 nonceBn :
  sole_transaction transactions = Some tx ->
  bigNumberishArrayToDecimalStringArray (inner_calldata tx) = inl e ->
  nonce_step this details log = (inr nonce0, log1) ->
  toBN nonce0 = inr nonceBn ->
  execute this transactions abis details log =
  (inl e,
   match nonce details with
   | Some _ => log
   | None => log ++ [CallContract (get_nonce_call (address this))]
   end).
Proof.
  intros Hsole Hcd Hstep Hnonce.
  rewrite (execute_sole _ _ _ _ _ _ Hsole), execute_single_run.
  pose proof (nonce_step_log this details log) as Hlog1.
  rewrite Hstep in Hlog1 |- *. cbn [snd] in Hlog1.
  now rewrite Hnonce, Hcd, Hlog1.
Qed.

(** X9: a nonce override that [toBN] rejects makes [execute] reject with
    that error before any exchange. *)
Theorem execute_bad_nonce_override this transactions tx abis details log n e :
  sole_transaction transactions = Some tx ->
  nonce details = Some n ->
  toBN n = inl e ->
  execute this transactions abis details log = (inl e, log).
Proof.
  intros Hsole Hoverride Hn.
  rewrite (execute_sole _ _ _ _ _ _ Hsole), execute_single_run.
  unfold nonce_step. now rewrite Hoverride, Hn.
Qed.

(** X10: letting [execute] fetch the nonce is the same as fetching it with
    [getNonce] and passing it as the override: after a successful
    [getNonce], [execute] with that nonce as override does what [execute]
    without override does as a whole. *)
Theorem execute_with_fetched_nonce this transactions tx abis log fetched log1 :
  sole_transaction transactions = Some tx ->
  getNonce this log = (inr fetched, log1) ->
  execute this transactions abis {| nonce := None |} log =
  execute this transactions abis {| nonce := Some (BnString fetched) |} log1.
Proof.
  intros Hsole Hget.
  rewrite !(execute_sole _ _ _ _ _ _ Hsole), !execute_single_run.
  unfold nonce_step. cbn [nonce]. now rewrite Hget.
Qed.

(** ** The message operations *)

(** X11: [hashMessage] makes no exchange; [signMessage] makes one, the
    signing of the message for the account's own address; and neither
    they nor [verifyMessageHash] and [verifyMessage] ever ask for a
    transaction signature or submit anything. *)
Theorem message_operations_never_submit this typedData hash signature log :
  let quiet (trace : list event) :=
    forallb (fun ev => negb (is_SignTransaction ev || is_InvokeFunction ev))
      trace = true in
  appended (hashMessage this typedData) log = [] /\
  appended (signMessage this typedData) log =
    [SignMessage typedData (address this)] /\
  quiet (appended (verifyMessageHash this hash signature) log) /\
  quiet (appended (verifyMessage this typedData signature) log).
Proof.
  assert (Hverify : forall h log0,
    forallb (fun ev => negb (is_SignTransaction ev || is_InvokeFunction ev))
      (skipn (length log0) (snd (verifyMessageHash this h signature log0)))
    = true).
  { intros h log0. rewrite verifyMessageHash_run.
    destruct (toBN h); [now trace_norm|].
    destruct (bigNumberishArrayToDecimalStringArray signature);
      [now trace_norm|].
    destruct (compileCalldata _); now trace_norm. }
  cbv zeta. unfold appended. repeat split.
  - unfold hashMessage, lift. now trace_norm.
  - unfold signMessage, signer_signMessage, exchange. now trace_norm.
  - apply Hverify.
  - unfold verifyMessage. rewrite bind_run. unfold hashMessage, lift.
    destruct (getMessageHash typedData (address this)); [now trace_norm|].
    apply Hverify.
Qed.

(** X12: [verifyMessage] rejects exactly when the hashing of the typed
    data throws, with that error and without any exchange; when the
    hashing succeeds it returns a boolean, never an error. *)
Theorem verifyMessage_rejects_iff_hash_throws this typedData signature log :
  match getMessageHash typedData (address this) with
  | inl e => verifyMessage this typedData signature log = (inl e, log)
  | inr _ => exists b, fst (verifyMessage this typedData signature log) = inr b
  end.
Proof.
  unfold verifyMessage. rewrite bind_run. unfold hashMessage, lift.
  destruct (getMessageHash typedData (address this)) as [e|h];
    [reflexivity|].
  rewrite verifyMessageHash_run.
  destruct (toBN (BnString h)); [now exists false|].
  destruct (bigNumberishArrayToDecimalStringArray signature);
    [now exists false|].
  destruct (compileCalldata _); [now exists false|].
  cbv zeta. now eexists.
Qed.

End AccountProperties.

(** * Properties of the gateway functions *)

(** ** Strings *)

Lemma append_inv_head (p s s' : string) :
  (p ++ s = p ++ s')%string -> s = s'.
Proof.
  induction p as [|c p IH]; simpl; [auto|].
  intros [= H]. auto.
Qed.

Lemma append_assoc (s t u : string) :
  ((s ++ t) ++ u = s ++ t ++ u)%string.
Proof. induction s as [|c s IH]; simpl; [reflexivity|now rewrite IH]. Qed.

Lemma ampersand_free_append (s t : string) :
  Gateway.ampersand_free (s ++ t) =
  Gateway.ampersand_free s && Gateway.ampersand_free t.
Proof.
  induction s as [|c s IH]; simpl; [reflexivity|].
  now rewrite IH, andb_assoc.
Qed.

(** A string is cut in one way only at its last ampersand. *)
Lemma cut_at_last_ampersand (x x' y y' : string) :
  Gateway.ampersand_free y = true ->
  Gateway.ampersand_free y' = true ->
  (x ++ String "&" y = x' ++ String "&" y')%string ->
  x = x' /\ y = y'.
Proof.
  intros Hy Hy'. revert x'.
  induction x as [|c x IH]; intros [|c' x']; simpl.
  - now intros [= ->].
  - intros [= <- ->].
    rewrite ampersand_free_append in Hy. simpl in Hy.
    now rewrite andb_false_r in Hy.
  - intros [= -> <-].
    rewrite ampersand_free_append in Hy'. simpl in Hy'.
    now rewrite andb_false_r in Hy'.
  - intros [= -> H]. destruct (IH _ H) as [-> ->]. auto.
Qed.

Section GatewayProperties.

Context {object number : Type}.

Variable numberToString : number -> string.

Local Abbreviation perform := (Gateway.perform numberToString).
Local Abbreviation Axios := (Gateway.Axios object).
Local Abbreviation request := (Gateway.request object).

Implicit Types (axios : Axios) (log : list request).

Lemma resolve_get_run axios url log :
  Gateway.resolve_data (Gateway.axios_get axios url) log =
  (match Gateway.get axios log url with
   | inr resp => inr (Gateway.data resp)
   | inl e => inl e
   end, log ++ [Gateway.Get url]).
Proof.
  unfold Gateway.resolve_data, Gateway.axios_get.
  now destruct (Gateway.get axios log url).
Qed.

Lemma resolve_post_run axios url body log :
  Gateway.resolve_data (Gateway.axios_post axios url body) log =
  (match Gateway.post axios log url body with
   | inr resp => inr (Gateway.data resp)
   | inl e => inl e
   end, log ++ [Gateway.Post url body]).
Proof.
  unfold Gateway.resolve_data, Gateway.axios_post.
  now destruct (Gateway.post axios log url body).
Qed.

(** X13: each of the eight functions makes exactly one HTTP request,
    whatever its outcome.  The request carries the body the function was
    given, unchanged ([callContract], [addTransaction]), or is a GET
    without body; the function resolves with the [data] of the response
    and rejects with the error axios rejected with, unchanged. *)
Theorem gateway_one_request axios (c : Gateway.call object number) log :
  exists r,
    appended (perform axios c) log = [r] /\
    Gateway.body_of r = Gateway.payload c /\
    fst (perform axios c log) =
    match Gateway.answer axios log r with
    | inr resp => inr (Gateway.data resp)
    | inl e => inl e
    end.
Proof.
  unfold appended.
  destruct c; cbn [Gateway.perform];
    unfold Gateway.getContractAddresses, Gateway.callContract,
      Gateway.getBlock, Gateway.getCode, Gateway.getStorageAt,
      Gateway.getTransactionStatus, Gateway.getTransaction,
      Gateway.addTransaction;
    rewrite ?resolve_get_run, ?resolve_post_run; cbn [fst snd];
    rewrite skipn_length_app; eexists; repeat split.
Qed.

(** X14: every request goes to a URL under
    [https://alpha2.starknet.io//] (the base URL ends with a slash and
    the path adds another): under [//gateway/] for [addTransaction], the
    only function that reaches the gateway, and under [//feeder_gateway/]
    for the seven others. *)
Theorem gateway_endpoints axios (c : Gateway.call object number) log :
  forallb
    (fun r =>
       String.prefix
         (if Gateway.is_addTransaction c
          then "https://alpha2.starknet.io//gateway/"
          else "https://alpha2.starknet.io//feeder_gateway/")
         (Gateway.url_of r))
    (appended (perform axios c) log) = true.
Proof.
  unfold appended.
  destruct c; cbn [Gateway.perform];
    unfold Gateway.getContractAddresses, Gateway.callContract,
      Gateway.getBlock, Gateway.getCode, Gateway.getStorageAt,
      Gateway.getTransactionStatus, Gateway.getTransaction,
      Gateway.addTransaction;
    rewrite ?resolve_get_run, ?resolve_post_run; cbn [fst snd];
    rewrite skipn_length_app; reflexivity.
Qed.

Lemma getStorageAt_request axios contractAddress key blockId log :
  appended (Gateway.getStorageAt numberToString axios contractAddress key
              blockId) log =
  [ Gateway.Get
      (Gateway.FEEDER_GATEWAY_URL ++ "/get_storage_at?contractAddress="
         ++ contractAddress ++ "&key=" ++ numberToString key
         ++ "&blockId=" ++ numberToString blockId) ].
Proof.
  unfold appended, Gateway.getStorageAt.
  rewrite resolve_get_run. cbn [snd]. apply skipn_length_app.
Qed.

Lemma getCode_request axios contractAddress blockId log :
  appended (Gateway.getCode numberToString axios contractAddress blockId) log =
  [ Gateway.Get
      (Gateway.FEEDER_GATEWAY_URL ++ "/get_code?contractAddress="
         ++ contractAddress ++ "&blockId=" ++ numberToString blockId) ].
Proof.
  unfold appended, Gateway.getCode.
  rewrite resolve_get_run. cbn [snd]. apply skipn_length_app.
Qed.

(** X15: the contract address is put into the URL of [getStorageAt] as it
    is, without escaping, yet the URL tells the arguments apart: as long
    as the rendered key and block id hold no ampersand, two calls that
    request the same URL were given the same contract address, and key
    and block id that render alike. *)
Theorem getStorageAt_url_determines axios axios' log log'
    contractAddress key blockId contractAddress' key' blockId' :
  Gateway.ampersand_free (numberToString key) = true ->
  Gateway.ampersand_free (numberToString blockId) = true ->
  Gateway.ampersand_free (numberToString key') = true ->
  Gateway.ampersand_free (numberToString blockId') = true ->
  appended (Gateway.getStorageAt numberToString axios contractAddress key
              blockId) log =
  appended (Gateway.getStorageAt numberToString axios' contractAddress' key'
              blockId') log' ->
  contractAddress = contractAddress' /\
  numberToString key = numberToString key' /\
  numberToString blockId = numberToString blockId'.
Proof.
  intros Hk Hb Hk' Hb'. rewrite !getStorageAt_request. intros Hurl.
  apply (f_equal (fun l => match l with
                           | r :: _ => Gateway.url_of r
                           | [] => EmptyString
                           end)) in Hurl.
  cbv beta iota delta [Gateway.url_of] in Hurl.
  apply append_inv_head, append_inv_head in Hurl.
  change (contractAddress ++ "&key=" ++ numberToString key
            ++ "&blockId=" ++ numberToString blockId)%string
    with (contractAddress ++ ("&key=" ++ numberToString key)
            ++ String "&" ("blockId=" ++ numberToString blockId))%string
    in Hurl.
  change (contractAddress' ++ "&key=" ++ numberToString key'
            ++ "&blockId=" ++ numberToString blockId')%string
    with (contractAddress' ++ ("&key=" ++ numberToString key')
            ++ String "&" ("blockId=" ++ numberToString blockId'))%string
    in Hurl.
  rewrite <- !append_assoc in Hurl.
  apply cut_at_last_ampersand in Hurl as [Hfront Hblock];
    [|exact Hb|exact Hb'].
  apply (append_inv_head "blockId=") in Hblock.
  rewrite !append_assoc in Hfront.
  change (contractAddress ++ "&key=" ++ numberToString key)%string
    with (contractAddress ++ String "&" ("key=" ++ numberToString key))%string
    in Hfront.
  change (contractAddress' ++ "&key=" ++ numberToString key')%string
    with (contractAddress' ++ String "&" ("key=" ++ numberToString key'))%string
    in Hfront.
  apply cut_at_last_ampersand in Hfront as [Haddress Hkey];
    [|exact Hk|exact Hk'].
  apply (append_inv_head "key=") in Hkey.
  auto.
Qed.

(** X16: the same for [getCode]: with a rendered block id free of
    ampersands, the requested URL determines the contract address and the
    rendering of the block id. *)
Theorem getCode_url_determines axios axios' log log'
    contractAddress blockId contractAddress' blockId' :
  Gateway.ampersand_free (numberToString blockId) = true ->
  Gateway.ampersand_free (numberToString blockId') = true ->
  appended (Gateway.getCode numberToString axios contractAddress blockId) log =
  appended (Gateway.getCode numberToString axios' contractAddress' blockId')
    log' ->
  contractAddress = contractAddress' /\
  numberToString blockId = numberToString blockId'.
Proof.
  intros Hb Hb'. rewrite !getCode_request. intros Hurl.
  apply (f_equal (fun l => match l with
                           | r :: _ => Gateway.url_of r
                           | [] => EmptyString
                           end)) in Hurl.
  cbv beta iota delta [Gateway.url_of] in Hurl.
  apply append_inv_head, append_inv_head in Hurl.
  change (contractAddress ++ "&blockId=" ++ numberToString blockId)%string
    with (contractAddress
            ++ String "&" ("blockId=" ++ numberToString blockId))%string
    in Hurl.
  change (contractAddress' ++ "&blockId=" ++ numberToString blockId')%string
    with (contractAddress'
            ++ String "&" ("blockId=" ++ numberToString blockId'))%string
    in Hurl.
  apply cut_at_last_ampersand in Hurl as [Haddress Hblock];
    [|exact Hb|exact Hb'].
  apply (append_inv_head "blockId=") in Hblock.
  auto.
Qed.

End GatewayProperties.

(** * Further runs on the stub collaborators *)

Section MoreRuns.

Local Abbreviation execute := (execute (U := Stub.utils)).
Local Abbreviation getNonce := (getNonce (U := Stub.utils)).

(** The submission of the scenario. *)
Local Abbreviation submittedTransfer :=
  {| Invocation.contractAddress := "0xacc";
     Invocation.entrypoint := "execute";
     Invocation.calldata :=
       Some ["0x1"; "selector:transfer"; "2"; "2"; "100"; "5"];
     Invocation.signature := Some [BnString "11"; BnString "12"] |}.

(** A contract address is not escaped: one that holds an ampersand adds a
    parameter to the query. *)
Example getCode_unescaped :
  appended (Gateway.getCode Gateway.Stub.numberToString Gateway.Stub.echo
              "0x1&blockId=9" 7%Z) [] =
  [ Gateway.Get
      "https://alpha2.starknet.io//feeder_gateway/get_code?contractAddress=0x1&blockId=9&blockId=7" ].
Proof. reflexivity. Qed.

Example addTransaction_unreachable :
  Gateway.addTransaction Gateway.Stub.unreachable "tx" [] =
  (inl (Error "Network Error"),
   [Gateway.Post "https://alpha2.starknet.io//gateway/add_transaction" "tx"]).
Proof. reflexivity. Qed.

Lemma getNonce_first_element_witness :
  fst (getNonce Stub.account []) = inr "0x5".
Proof.
  exact (getNonce_first_element (U := Stub.utils) Stub.account []
           {| result := ["0x5"] |} "0x5" [] eq_refl eq_refl).
Defined.

Lemma execute_signs_what_it_submits_witness :
  exists before inner signerDetails,
    appended (execute Stub.account (Array [Stub.transfer]) [] Stub.noOverride)
      [] =
    before ++ [SignTransaction [inner] signerDetails [];
               InvokeFunction submittedTransfer] /\
    walletAddress signerDetails = "0xacc".
Proof.
  destruct (execute_signs_what_it_submits (U := Stub.utils) Stub.account
              (Array [Stub.transfer]) [] Stub.noOverride [] submittedTransfer)
    as (before & inner & signerDetails & sg & cd & Htrace & _ & _ & Hwallet & _).
  - simpl. right. right. left. reflexivity.
  - exists before, inner, signerDetails. split; [exact Htrace|exact Hwallet].
Defined.

Lemma execute_returns_gateway_answer_witness :
  exists before,
    fst (execute Stub.account (Single Stub.transfer) [] Stub.override5 []) =
    invokeFunction Stub.gateway ([] ++ before) submittedTransfer.
Proof.
  destruct (execute_returns_gateway_answer (U := Stub.utils) Stub.account
              (Single Stub.transfer) [] Stub.override5 [] submittedTransfer)
    as (before & _ & Hanswer).
  - simpl. right. left. reflexivity.
  - exists before. exact Hanswer.
Defined.

Lemma submitted_calldata_determines_witness :
  bigNumberishArrayToDecimalStringArray (U := Stub.utils)
    [BnString "0x2"; BnNumber 100] =
  bigNumberishArrayToDecimalStringArray (U := Stub.utils)
    [BnNumber 2; BnString "0x64"].
Proof.
  refine (proj1 (proj2 (proj2
    (submitted_calldata_determines (U := Stub.utils)
       Stub.account (Single Stub.transfer) [] Stub.override5 []
       submittedTransfer Stub.transfer
       Stub.terseAccount (Array [Faulty.transferAgain]) [] Stub.override5 []
       submittedTransfer Faulty.transferAgain
       _ _ eq_refl eq_refl eq_refl)))).
  - simpl. right. left. reflexivity.
  - simpl. right. left. reflexivity.
Defined.

Lemma execute_signer_failure_witness :
  fst (execute Faulty.lockedAccount (Single Stub.transfer) [] Stub.noOverride [])
  = inl (Error "User abort").
Proof.
  refine (proj2 (execute_signer_failure (U := Stub.utils) Faulty.lockedAccount
                   (Single Stub.transfer) [] Stub.noOverride []
                   [CallContract (get_nonce_call "0xacc")]
                   [ {| Invocation.contractAddress := "0x1";
                        Invocation.entrypoint := "transfer";
                        Invocation.calldata := Some ["2"; "100"];
                        Invocation.signature := None |} ]
                   {| walletAddress := "0xacc"; signerNonce := 5%Z |} [] []
                   (Error "User abort") _ _)); reflexivity.
Defined.

Lemma execute_bad_calldata_witness :
  execute Stub.account (Single Faulty.garbled) [] Stub.noOverride [] =
  (inl (Error "Invalid character"), [CallContract (get_nonce_call "0xacc")]).
Proof.
  exact (execute_bad_calldata (U := Stub.utils) Stub.account
           (Single Faulty.garbled) Faulty.garbled [] Stub.noOverride []
           (Error "Invalid character") (BnString "0x5")
           [CallContract (get_nonce_call "0xacc")] 5%Z
           eq_refl eq_refl eq_refl eq_refl).
Defined.

Lemma execute_bad_nonce_override_witness :
  execute Stub.account (Single Stub.transfer) [] Faulty.garbledOverride [] =
  (inl (Error "Invalid character"), []).
Proof.
  exact (execute_bad_nonce_override (U := Stub.utils) Stub.account
           (Single Stub.transfer) Stub.transfer [] Faulty.garbledOverride []
           (BnString "zz") (Error "Invalid character")
           eq_refl eq_refl eq_refl).
Defined.

Lemma execute_with_fetched_nonce_witness :
  execute Stub.account (Array [Stub.transfer]) [] {| nonce := None |} [] =
  execute Stub.account (Array [Stub.transfer]) []
    {| nonce := Some (BnString "0x5") |}
    [CallContract (get_nonce_call "0xacc")].
Proof.
  exact (execute_with_fetched_nonce (U := Stub.utils) Stub.account
           (Array [Stub.transfer]) Stub.transfer [] [] "0x5"
           [CallContract (get_nonce_call "0xacc")] eq_refl eq_refl).
Defined.

Lemma getStorageAt_url_determines_witness :
  "0x1" = "0x1" /\
  Gateway.Stub.numberToString 3 = Gateway.Stub.numberToString 3 /\
  Gateway.Stub.numberToString 7 = Gateway.Stub.numberToString 7.
Proof.
  exact (getStorageAt_url_determines Gateway.Stub.numberToString
           Gateway.Stub.echo Gateway.Stub.unreachable []
           [Gateway.Get "earlier"] "0x1" 3%Z 7%Z "0x1" 3%Z 7%Z
           eq_refl eq_refl eq_refl eq_refl eq_refl).
Defined.

Lemma getCode_url_determines_witness :
  "0x1" = "0x1" /\
  Gateway.Stub.numberToString 7 = Gateway.Stub.numberToString 7.
Proof.
  exact (getCode_url_determines Gateway.Stub.numberToString
           Gateway.Stub.echo Gateway.Stub.unreachable []
           [Gateway.Get "earlier"] "0x1" 7%Z "0x1" 7%Z
           eq_refl eq_refl eq_refl).
Defined.

End MoreRuns.
